(** * Chat and notification coordinators over a document store

    A shallow embedding of [ChatService] (lib/chatService) and
    [NotificationService] (lib/notificationService.ts), together with the
    chat-creation step of [ChatModal.handleStartChat].

    The coordinators are asynchronous TypeScript methods that talk to a
    Firestore database.  They are embedded as computations in a state and
    exception monad [M] over a [World]: the three document collections, the
    outcomes of the coming store calls, the clock, the supply of generated
    document ids, and what was written to the console.  An [await] is a
    sequencing point; [try]/[catch] is [tryCatch].

    Strings: a Rocq [string] stands for a JavaScript string, one character
    per code unit. *)

From Stdlib Require Import ZArith Ascii String.
From stdpp Require Import base gmap list strings sorting pretty.

(** ** Data model *)

Inductive MessageType := TextMessage | MemeMessage | ImageMessage.
Inductive ChatType := Direct | Group.

(** [ChatRoom.lastMessage] *)
Record LastMessage := mkLastMessage {
  lm_text : string;
  lm_senderId : string;
  lm_timestamp : Z;
  lm_type : MessageType
}.

(** [interface ChatRoom] *)
Record ChatRoom := mkChatRoom {
  room_id : string;
  room_name : option string;
  room_type : ChatType;
  participants : list string;
  createdBy : string;
  createdAt : Z;
  lastMessage : option LastMessage;
  lastActivity : Z;
  isActive : bool
}.

(** [ChatMessage.memeData] *)
Record MemeData := mkMemeData {
  memeId : string;
  title : string;
  imageUrl : string;
  authorName : string
}.

(** [interface ChatMessage] *)
Record ChatMessage := mkChatMessage {
  msg_id : string;
  chatId : string;
  senderId : string;
  senderName : string;
  text : string;
  msg_type : MessageType;
  timestamp : Z;
  memeData : option MemeData;
  readBy : list string;
  edited : option bool;
  editedAt : option Z
}.

(** Modelled from the spec: [NotificationData] is declared in types/follow,
    which is not among the sources.  The fields are those of the spec's
    Notification entity; [OtherNotification] stands for the kinds the spec
    leaves open. *)
Inductive NotificationType :=
  | Like | Comment | Reply | Achievement
  | OtherNotification (tag : string).

(** Modelled from the spec: the kind-specific payload; the fields are the
    ones the constructors of [NotificationService] write. *)
Record Metadata := mkMetadata {
  memeTitle : option string;
  commentText : option string;
  achievementName : option string;
  achievementIcon : option string
}.

Record NotificationData := mkNotificationData {
  n_id : string;
  n_userId : string;
  n_fromUserId : string;
  n_type : NotificationType;
  n_targetId : option string;
  n_message : string;
  n_read : bool;
  n_createdAt : Z;
  n_metadata : option Metadata
}.

(** [Omit<NotificationData, 'id'>], the argument of [createNotification];
    [read] and [createdAt] may be left unset. *)
Record NotificationInput := mkNotificationInput {
  i_userId : string;
  i_fromUserId : string;
  i_type : NotificationType;
  i_targetId : option string;
  i_message : string;
  i_read : option bool;
  i_createdAt : option Z;
  i_metadata : option Metadata
}.

Global Instance MessageType_eq_dec : EqDecision MessageType.
Proof. solve_decision. Defined.
Global Instance ChatType_eq_dec : EqDecision ChatType.
Proof. solve_decision. Defined.
Global Instance LastMessage_eq_dec : EqDecision LastMessage.
Proof. solve_decision. Defined.
Global Instance ChatRoom_eq_dec : EqDecision ChatRoom.
Proof. solve_decision. Defined.
Global Instance MemeData_eq_dec : EqDecision MemeData.
Proof. solve_decision. Defined.
Global Instance ChatMessage_eq_dec : EqDecision ChatMessage.
Proof. solve_decision. Defined.
Global Instance NotificationType_eq_dec : EqDecision NotificationType.
Proof. solve_decision. Defined.
Global Instance Metadata_eq_dec : EqDecision Metadata.
Proof. solve_decision. Defined.
Global Instance NotificationData_eq_dec : EqDecision NotificationData.
Proof. solve_decision. Defined.

(** ** The document store *)

(** The three collections: [chatRooms], [chatMessages], [notifications],
    each a map from document id to document. *)
Record Db := mkDb {
  chatRooms : gmap string ChatRoom;
  chatMessages : gmap string ChatMessage;
  notifications : gmap string NotificationData
}.

Definition emptyDb : Db := mkDb ∅ ∅ ∅.

Record World := mkWorld {
  db : Db;
  (** outcome of the coming store calls, in order: [true] when the call
      fails; past the end of the list every call goes through *)
  faults : list bool;
  (** [clock n] is what the [n]-th call of [Date.now()] returns *)
  clock : nat → Z;
  clockReads : nat;
  (** [autoId n] is the [n]-th document id generated by [doc(collection)] *)
  autoId : nat → string;
  idsTaken : nat;
  (** lines written by [console.error], newest first *)
  console : list string;
  (** messages shown by [toast.error], newest first *)
  toasts : list string
}.

Definition set_db (d : Db) (w : World) : World :=
  mkWorld d (faults w) (clock w) (clockReads w) (autoId w) (idsTaken w)
          (console w) (toasts w).
Definition set_faults (fs : list bool) (w : World) : World :=
  mkWorld (db w) fs (clock w) (clockReads w) (autoId w) (idsTaken w)
          (console w) (toasts w).

(** ** The monad of coordinator code *)

Inductive Error :=
  | StoreError (code : string)      (* a rejected store call *)
  | JsError (message : string).    (* [throw new Error(message)] *)

Inductive Outcome (A : Type) :=
  | Return (a : A)
  | Throw (e : Error).
Arguments Return {A} a.
Arguments Throw {A} e.

Definition M (A : Type) : Type := World → Outcome A * World.

Definition ret {A} (a : A) : M A := λ w, (Return a, w).
Definition throw {A} (e : Error) : M A := λ w, (Throw e, w).
Definition bind {A B} (m : M A) (k : A → M B) : M B :=
  λ w, match m w with
       | (Return a, w') => k a w'
       | (Throw e, w') => (Throw e, w')
       end.
(** [try { body } catch (error) { handler error }] *)
Definition tryCatch {A} (body : M A) (handler : Error → M A) : M A :=
  λ w, match body w with
       | (Return a, w') => (Return a, w')
       | (Throw e, w') => handler e w'
       end.

Notation "x <~ m ;; k" := (bind m (λ x, k))
  (at level 100, m at next level, right associativity).
Notation "m ;;; k" := (bind m (λ _, k))
  (at level 100, right associativity).

(** [console.error(line, ...)]: only the fixed first argument is kept. *)
Definition console_error (line : string) : M unit :=
  λ w, (Return tt,
        mkWorld (db w) (faults w) (clock w) (clockReads w) (autoId w)
                (idsTaken w) (line :: console w) (toasts w)).

(** [toast.error(line)] *)
Definition toast_error (line : string) : M unit :=
  λ w, (Return tt,
        mkWorld (db w) (faults w) (clock w) (clockReads w) (autoId w)
                (idsTaken w) (console w) (line :: toasts w)).

(** [Date.now()] *)
Definition Date_now : M Z :=
  λ w, (Return (clock w (clockReads w)),
        mkWorld (db w) (faults w) (clock w) (S (clockReads w)) (autoId w)
                (idsTaken w) (console w) (toasts w)).

(** [doc(collection(db, c)).id]: a generated id; no store call is made. *)
Definition newDocId : M string :=
  λ w, (Return (autoId w (idsTaken w)),
        mkWorld (db w) (faults w) (clock w) (clockReads w) (autoId w)
                (S (idsTaken w)) (console w) (toasts w)).

(** Every call that reaches the store first learns whether it fails. *)
Definition storeCall : M unit :=
  λ w, match faults w with
       | true :: fs => (Throw (StoreError "unavailable"), set_faults fs w)
       | false :: fs => (Return tt, set_faults fs w)
       | [] => (Return tt, w)
       end.

Definition readDb : M Db := λ w, (Return (db w), w).

(** *** Writes *)

(** [arrayUnion(u)] and [arrayRemove(u)] on an array field. *)
Definition arrayUnion (u : string) (l : list string) : list string :=
  if bool_decide (u ∈ l) then l else l ++ [u].
Definition arrayRemove (u : string) (l : list string) : list string :=
  filter (λ x, x ≠ u) l.

(** The field patches the coordinators pass to [updateDoc] / [batch.update]. *)
Inductive RoomPatch :=
  | PatchLastMessage (lm : LastMessage) (activity : Z)
      (* { lastMessage: lm, lastActivity: activity } *)
  | PatchParticipantsUnion (u : string)   (* { participants: arrayUnion(u) } *)
  | PatchParticipantsRemove (u : string)  (* { participants: arrayRemove(u) } *)
  | PatchInactive.                        (* { isActive: false } *)

Definition patchRoom (p : RoomPatch) (r : ChatRoom) : ChatRoom :=
  match p with
  | PatchLastMessage lm t =>
      mkChatRoom (room_id r) (room_name r) (room_type r) (participants r)
                 (createdBy r) (createdAt r) (Some lm) t (isActive r)
  | PatchParticipantsUnion u =>
      mkChatRoom (room_id r) (room_name r) (room_type r)
                 (arrayUnion u (participants r))
                 (createdBy r) (createdAt r) (lastMessage r) (lastActivity r)
                 (isActive r)
  | PatchParticipantsRemove u =>
      mkChatRoom (room_id r) (room_name r) (room_type r)
                 (arrayRemove u (participants r))
                 (createdBy r) (createdAt r) (lastMessage r) (lastActivity r)
                 (isActive r)
  | PatchInactive =>
      mkChatRoom (room_id r) (room_name r) (room_type r) (participants r)
                 (createdBy r) (createdAt r) (lastMessage r) (lastActivity r)
                 false
  end.

(** [{ readBy: arrayUnion(u) }] *)
Definition patchReadBy (u : string) (m : ChatMessage) : ChatMessage :=
  mkChatMessage (msg_id m) (chatId m) (senderId m) (senderName m) (text m)
                (msg_type m) (timestamp m) (memeData m)
                (arrayUnion u (readBy m)) (edited m) (editedAt m).

(** [{ read: true }] *)
Definition patchRead (n : NotificationData) : NotificationData :=
  mkNotificationData (n_id n) (n_userId n) (n_fromUserId n) (n_type n)
                     (n_targetId n) (n_message n) true (n_createdAt n)
                     (n_metadata n).

(** One write, as given to [setDoc], [updateDoc], [deleteDoc] or queued on a
    [writeBatch]. *)
Inductive WriteOp :=
  | SetRoom (k : string) (r : ChatRoom)
  | SetMessage (k : string) (m : ChatMessage)
  | SetNotification (k : string) (n : NotificationData)
  | UpdateRoom (k : string) (p : RoomPatch)
  | UpdateReadBy (k : string) (u : string)
  | UpdateRead (k : string)
  | DeleteNotification (k : string).

(** The store's effect of one write.  A [set] creates or overwrites, an
    [update] of a document that does not exist is rejected ([None]), a
    [delete] of one that does not exist is accepted. *)
Definition applyWrite (op : WriteOp) (d : Db) : option Db :=
  match op with
  | SetRoom k r =>
      Some (mkDb (<[k := r]> (chatRooms d)) (chatMessages d) (notifications d))
  | SetMessage k m =>
      Some (mkDb (chatRooms d) (<[k := m]> (chatMessages d)) (notifications d))
  | SetNotification k n =>
      Some (mkDb (chatRooms d) (chatMessages d) (<[k := n]> (notifications d)))
  | UpdateRoom k p =>
      match chatRooms d !! k with
      | Some r => Some (mkDb (<[k := patchRoom p r]> (chatRooms d))
                             (chatMessages d) (notifications d))
      | None => None
      end
  | UpdateReadBy k u =>
      match chatMessages d !! k with
      | Some m => Some (mkDb (chatRooms d)
                             (<[k := patchReadBy u m]> (chatMessages d))
                             (notifications d))
      | None => None
      end
  | UpdateRead k =>
      match notifications d !! k with
      | Some n => Some (mkDb (chatRooms d) (chatMessages d)
                             (<[k := patchRead n]> (notifications d)))
      | None => None
      end
  | DeleteNotification k =>
      Some (mkDb (chatRooms d) (chatMessages d) (delete k (notifications d)))
  end.

Fixpoint applyWrites (ops : list WriteOp) (d : Db) : option Db :=
  match ops with
  | [] => Some d
  | op :: ops' =>
      match applyWrite op d with
      | Some d' => applyWrites ops' d'
      | None => None
      end
  end.

(** [batch.commit()]: the queued writes are applied all together or, when
    the call fails or one of them is rejected, not at all.  A batch with
    no write queued is not sent: the commit returns at once, without a
    store call. *)
Definition commit (ops : list WriteOp) : M unit :=
  match ops with
  | [] => ret tt
  | _ :: _ =>
      storeCall ;;;
      λ w, match applyWrites ops (db w) with
           | Some d' => (Return tt, set_db d' w)
           | None => (Throw (StoreError "not-found"), w)
           end
  end.
Global Arguments commit : simpl never.

(** [setDoc], [updateDoc], [deleteDoc]: one write on its own. *)
Definition writeDoc (op : WriteOp) : M unit := commit [op].

(** *** Reads and queries *)

(** [getDoc(doc(db, 'chatRooms', k))] with [exists()] / [data()]. *)
Definition getDoc_room (k : string) : M (option ChatRoom) :=
  storeCall ;;; d <~ readDb ;; ret (chatRooms d !! k).

Inductive Direction := Asc | Desc.

(** A query: [where] clauses, an optional [orderBy] and an optional
    [limit]. *)
Record Query (F O : Type) := mkQuery {
  q_where : list F;
  q_orderBy : option (O * Direction);
  q_limit : option nat
}.
Arguments mkQuery {F O} _ _ _.
Arguments q_where {F O} _.
Arguments q_orderBy {F O} _.
Arguments q_limit {F O} _.

Definition ordered {A} (key : A → Z) (dir : Direction) : relation A :=
  λ x y, match dir with
         | Asc => (key x ≤ key y)%Z
         | Desc => (key y ≤ key x)%Z
         end.

Global Instance ordered_dec {A} (key : A → Z) dir x y :
  Decision (ordered key dir x y).
Proof. destruct dir; simpl; apply _. Defined.

Section run_query.
Context {A F O : Type}.
Variable matches : F → A → bool.
Variable key : O → A → Z.

(** The documents of a collection selected by all [where] clauses, in
    the order asked for, cut at the limit: [querySnapshot.docs], each
    with its reference (the key) and its [data()]. *)
Definition runQuery (q : Query F O) (docs : gmap string A)
    : list (string * A) :=
  let hits :=
    filter (λ kd, forallb (λ f, matches f kd.2) (q_where q) = true)
           (map_to_list docs) in
  let sorted :=
    match q_orderBy q with
    | Some (o, dir) => merge_sort (ordered (λ kd, key o kd.2) dir) hits
    | None => hits
    end in
  match q_limit q with
  | Some n => take n sorted
  | None => sorted
  end.
End run_query.

(** Filters on [chatMessages].  [ReadByNotIn vs] is
    [where('readBy', 'not-in', vs)]: the store compares the whole field
    with each listed value, so with [vs = [[u]]] it selects the messages
    whose [readBy] array is not exactly [[u]]. *)
Inductive MessageFilter :=
  | ChatIdEq (c : string)                 (* where('chatId', '==', c) *)
  | SenderIdNe (u : string)               (* where('senderId', '!=', u) *)
  | ReadByNotIn (vs : list (list string)).

Definition messageMatches (f : MessageFilter) (m : ChatMessage) : bool :=
  match f with
  | ChatIdEq c => bool_decide (chatId m = c)
  | SenderIdNe u => bool_decide (senderId m ≠ u)
  | ReadByNotIn vs => bool_decide (readBy m ∉ vs)
  end.

Inductive MessageOrder := ByTimestamp.
Definition messageKey (o : MessageOrder) (m : ChatMessage) : Z := timestamp m.

(** Filters on [chatRooms]. *)
Inductive RoomFilter :=
  | ParticipantsContains (u : string)
      (* where('participants', 'array-contains', u) *)
  | IsActiveEq (b : bool).               (* where('isActive', '==', b) *)

Definition roomMatches (f : RoomFilter) (r : ChatRoom) : bool :=
  match f with
  | ParticipantsContains u => bool_decide (u ∈ participants r)
  | IsActiveEq b => bool_decide (isActive r = b)
  end.

Inductive RoomOrder := ByLastActivity.
Definition roomKey (o : RoomOrder) (r : ChatRoom) : Z := lastActivity r.

(** Filters on [notifications]. *)
Inductive NotificationFilter :=
  | UserIdEq (u : string)                (* where('userId', '==', u) *)
  | ReadEq (b : bool)                    (* where('read', '==', b) *)
  | CreatedAtLt (t : Z).                 (* where('createdAt', '<', t) *)

Definition notificationMatches (f : NotificationFilter)
    (n : NotificationData) : bool :=
  match f with
  | UserIdEq u => bool_decide (n_userId n = u)
  | ReadEq b => bool_decide (n_read n = b)
  | CreatedAtLt t => bool_decide (n_createdAt n < t)%Z
  end.

Inductive NotificationOrder := ByCreatedAt.
Definition notificationKey (o : NotificationOrder) (n : NotificationData) : Z :=
  n_createdAt n.

Definition messagesOf (q : Query MessageFilter MessageOrder) (d : Db)
    : list (string * ChatMessage) :=
  runQuery messageMatches messageKey q (chatMessages d).
Definition roomsOf (q : Query RoomFilter RoomOrder) (d : Db)
    : list (string * ChatRoom) :=
  runQuery roomMatches roomKey q (chatRooms d).
Definition notificationsOf (q : Query NotificationFilter NotificationOrder)
    (d : Db) : list (string * NotificationData) :=
  runQuery notificationMatches notificationKey q (notifications d).

(** [getDocs(q)] on each collection. *)
Definition getDocs_messages (q : Query MessageFilter MessageOrder)
    : M (list (string * ChatMessage)) :=
  storeCall ;;; d <~ readDb ;; ret (messagesOf q d).
Definition getDocs_rooms (q : Query RoomFilter RoomOrder)
    : M (list (string * ChatRoom)) :=
  storeCall ;;; d <~ readDb ;; ret (roomsOf q d).
Definition getDocs_notifications
    (q : Query NotificationFilter NotificationOrder)
    : M (list (string * NotificationData)) :=
  storeCall ;;; d <~ readDb ;; ret (notificationsOf q d).

(** [query(collection, ...clauses)] checks the [where] clauses while it
    builds the query, before any store call: a [!=] clause cannot come
    with another [!=] or with a [not-in] clause, nor a [not-in] with
    another [not-in]; such a query is refused with an invalid-argument
    error.  Of the queries on [chatMessages] in [ChatService], only the one
    of [getUnreadMessageCount] has two such clauses; the others pass the
    check, and their [query(...)] is not written out. *)
Definition negativeClause (f : MessageFilter) : bool :=
  match f with
  | SenderIdNe _ => true
  | ReadByNotIn _ => true
  | ChatIdEq _ => false
  end.

Definition refusedClauses (fs : list MessageFilter) : bool :=
  bool_decide (2 ≤ length (filter (λ f, negativeClause f = true) fs)).

Definition query_messages (q : Query MessageFilter MessageOrder)
    : M (Query MessageFilter MessageOrder) :=
  if refusedClauses (q_where q)
  then throw (StoreError "invalid-argument")
  else ret q.

(** ** ChatService *)

Module ChatService.

(** [[userId1, userId2].sort()]: the default sort compares the strings
    code unit by code unit and keeps equal elements in place. *)
Definition sortPair (userId1 userId2 : string) : list string :=
  if String.ltb userId2 userId1 then [userId2; userId1]
  else [userId1; userId2].

(** [`direct_${[userId1, userId2].sort().join('_')}`] *)
Definition directChatId (userId1 userId2 : string) : string :=
  "direct_" +:+ String.concat "_" (sortPair userId1 userId2).

Definition getDirectChat (userId1 userId2 : string) : M (option ChatRoom) :=
  tryCatch
    (let chatId := directChatId userId1 userId2 in
     chatDoc <~ getDoc_room chatId ;;
     match chatDoc with
     | Some r => ret (Some r)
     | None => ret None
     end)
    (λ error,
       console_error "Error getting direct chat:" ;;;
       ret None).

Definition createDirectChat (userId1 userId2 : string) : M ChatRoom :=
  tryCatch
    (existingChat <~ getDirectChat userId1 userId2 ;;
     match existingChat with
     | Some r => ret r
     | None =>
         let chatId := directChatId userId1 userId2 in
         t1 <~ Date_now ;;
         t2 <~ Date_now ;;
         let chatRoom :=
           mkChatRoom chatId None Direct [userId1; userId2] userId1
                      t1 None t2 true in
         writeDoc (SetRoom chatId chatRoom) ;;;
         ret chatRoom
     end)
    (λ error,
       console_error "Error creating direct chat:" ;;;
       throw error).

Definition createGroupChat (creatorId : string) (participants : list string)
    (groupName : string) : M ChatRoom :=
  tryCatch
    (chatRefId <~ newDocId ;;
     t1 <~ Date_now ;;
     t2 <~ Date_now ;;
     let chatRoom :=
       mkChatRoom chatRefId (Some groupName) Group
                  (creatorId :: filter (λ p, p ≠ creatorId) participants)
                  creatorId t1 None t2 true in
     writeDoc (SetRoom chatRefId chatRoom) ;;;
     ret chatRoom)
    (λ error,
       console_error "Error creating group chat:" ;;;
       throw error).

Definition userChatsQuery (userId : string) : Query RoomFilter RoomOrder :=
  mkQuery [ParticipantsContains userId; IsActiveEq true]
          (Some (ByLastActivity, Desc)) None.

Definition getUserChats (userId : string) : M (list ChatRoom) :=
  tryCatch
    (docs <~ getDocs_rooms (userChatsQuery userId) ;;
     ret (docs.*2))
    (λ error,
       console_error "Error getting user chats:" ;;;
       ret []).

Definition sendMessage (chatId senderId senderName text : string)
    : M ChatMessage :=
  tryCatch
    (messageRefId <~ newDocId ;;
     now <~ Date_now ;;
     let message :=
       mkChatMessage messageRefId chatId senderId senderName text
                     TextMessage now None [senderId] None None in
     let batch :=
       [ SetMessage messageRefId message;
         UpdateRoom chatId
           (PatchLastMessage
              (mkLastMessage text senderId (timestamp message) TextMessage)
              (timestamp message)) ] in
     commit batch ;;;
     ret message)
    (λ error,
       console_error "Error sending message:" ;;;
       throw error).

Definition sendMemeMessage (chatId senderId senderName : string)
    (memeData : MemeData) : M ChatMessage :=
  tryCatch
    (messageRefId <~ newDocId ;;
     now <~ Date_now ;;
     let message :=
       mkChatMessage messageRefId chatId senderId senderName
                     ("Shared a meme: " +:+ title memeData)
                     MemeMessage now (Some memeData) [senderId] None None in
     let batch :=
       [ SetMessage messageRefId message;
         UpdateRoom chatId
           (PatchLastMessage
              (mkLastMessage ("Shared a meme: " +:+ title memeData)
                             senderId (timestamp message) MemeMessage)
              (timestamp message)) ] in
     commit batch ;;;
     ret message)
    (λ error,
       console_error "Error sending meme message:" ;;;
       throw error).

Definition getChatMessages (chatId : string) (limitCount : nat)
    : M (list ChatMessage) :=
  tryCatch
    (docs <~ getDocs_messages
               (mkQuery [ChatIdEq chatId] (Some (ByTimestamp, Desc))
                        (Some limitCount)) ;;
     ret (reverse (docs.*2)))
    (λ error,
       console_error "Error getting chat messages:" ;;;
       ret []).

Definition markMessageAsRead (messageId userId : string) : M unit :=
  tryCatch
    (writeDoc (UpdateReadBy messageId userId))
    (λ error, console_error "Error marking message as read:").

Definition markChatAsRead (chatId userId : string) : M unit :=
  tryCatch
    (docs <~ getDocs_messages
               (mkQuery [ChatIdEq chatId; ReadByNotIn [[userId]]]
                        None None) ;;
     let batch := map (λ doc, UpdateReadBy doc.1 userId) docs in
     commit batch)
    (λ error, console_error "Error marking chat as read:").

(** The clauses [getUnreadMessageCount] hands to [query(...)] for one
    chat: [where('chatId', '==', chat.id)], [where('senderId', '!=',
    userId)] and [where('readBy', 'not-in', [[userId]])]. *)
Definition unreadQuery (chatId userId : string)
    : Query MessageFilter MessageOrder :=
  mkQuery [ChatIdEq chatId; SenderIdNe userId; ReadByNotIn [[userId]]]
          None None.

(** The body of [for (const chat of userChats) { ... }], with
    [totalUnread] threaded through: the query is built by [query(...)],
    then run by [getDocs]. *)
Fixpoint countUnread (userId : string) (userChats : list ChatRoom)
    (totalUnread : nat) : M nat :=
  match userChats with
  | [] => ret totalUnread
  | chat :: rest =>
      q <~ query_messages (unreadQuery (room_id chat) userId) ;;
      docs <~ getDocs_messages q ;;
      countUnread userId rest (totalUnread + length docs)
  end.

Definition getUnreadMessageCount (userId : string) : M nat :=
  tryCatch
    (userChats <~ getUserChats userId ;;
     countUnread userId userChats 0)
    (λ error,
       console_error "Error getting unread message count:" ;;;
       ret 0).

Definition addParticipant (chatId userId : string) : M unit :=
  tryCatch
    (writeDoc (UpdateRoom chatId (PatchParticipantsUnion userId)))
    (λ error,
       console_error "Error adding participant:" ;;;
       throw error).

Definition removeParticipant (chatId userId : string) : M unit :=
  tryCatch
    (writeDoc (UpdateRoom chatId (PatchParticipantsRemove userId)))
    (λ error,
       console_error "Error removing participant:" ;;;
       throw error).

Definition deleteChatRoom (chatId : string) : M unit :=
  tryCatch
    (commit [UpdateRoom chatId PatchInactive])
    (λ error,
       console_error "Error deleting chat room:" ;;;
       throw error).

Definition messagesQuery (chatId : string)
    : Query MessageFilter MessageOrder :=
  mkQuery [ChatIdEq chatId] (Some (ByTimestamp, Asc)) (Some 100).


Definition subscribeToUserChats {R : Type} (userId : string)
    (callback : list ChatRoom → R) (d : Db) : R :=
  callback ((roomsOf (userChatsQuery userId) d).*2).

End ChatService.

(** ** NotificationService *)

Module NotificationService.

(** JavaScript truthiness of the required fields: a string is falsy when
    it is empty; the four notification kinds are non-empty string
    literals. *)
Definition truthy (s : string) : bool := negb (bool_decide (s = "")).
Definition truthyType (t : NotificationType) : bool :=
  match t with
  | OtherNotification tag => truthy tag
  | _ => true
  end.

(** [s.substring(0, n)] *)
Definition substring0 (n : nat) (s : string) : string :=
  String.substring 0 n s.

Definition createNotification (notification : NotificationInput)
    : M string :=
  tryCatch
    (if negb (truthy (i_userId notification))
        || negb (truthyType (i_type notification))
        || negb (truthy (i_message notification))
     then throw (JsError "Missing required notification fields")
     else
       notificationRefId <~ newDocId ;;
       (* notification.createdAt || Date.now() *)
       created <~ match i_createdAt notification with
                  | Some t => if bool_decide (t = 0%Z) then Date_now
                              else ret t
                  | None => Date_now
                  end ;;
       (* notification.read || false *)
       let read := match i_read notification with
                   | Some b => b
                   | None => false
                   end in
       let notificationData :=
         mkNotificationData notificationRefId
           (i_userId notification) (i_fromUserId notification)
           (i_type notification) (i_targetId notification)
           (i_message notification) read created
           (i_metadata notification) in
       writeDoc (SetNotification notificationRefId notificationData) ;;;
       ret notificationRefId)
    (λ error,
       console_error "Error creating notification:" ;;;
       console_error "Notification data that failed:" ;;;
       throw error).

Definition getUserNotifications (userId : string) (limitCount : nat)
    : M (list NotificationData) :=
  tryCatch
    (docs <~ getDocs_notifications
               (mkQuery [UserIdEq userId] (Some (ByCreatedAt, Desc))
                        (Some limitCount)) ;;
     ret (docs.*2))
    (λ error,
       console_error "Error getting user notifications:" ;;;
       ret []).

Definition getUnreadCount (userId : string) : M nat :=
  tryCatch
    (docs <~ getDocs_notifications
               (mkQuery [UserIdEq userId; ReadEq false] None None) ;;
     ret (length docs))
    (λ error,
       console_error "Error getting unread count:" ;;;
       ret 0).

Definition markAsRead (notificationId : string) : M unit :=
  tryCatch
    (writeDoc (UpdateRead notificationId))
    (λ error,
       console_error "Error marking notification as read:" ;;;
       throw error).

Definition markAllAsRead (userId : string) : M unit :=
  tryCatch
    (docs <~ getDocs_notifications
               (mkQuery [UserIdEq userId; ReadEq false] None None) ;;
     commit (map (λ doc, UpdateRead doc.1) docs))
    (λ error,
       console_error "Error marking all notifications as read:" ;;;
       throw error).

Definition deleteNotification (notificationId : string) : M unit :=
  tryCatch
    (writeDoc (DeleteNotification notificationId))
    (λ error,
       console_error "Error deleting notification:" ;;;
       throw error).

Definition deleteAllNotifications (userId : string) : M unit :=
  tryCatch
    (docs <~ getDocs_notifications
               (mkQuery [UserIdEq userId] None None) ;;
     commit (map (λ doc, DeleteNotification doc.1) docs))
    (λ error,
       console_error "Error deleting all notifications:" ;;;
       throw error).

Definition createLikeNotification
    (likedByUserId memeAuthorId memeId memeTitle : string) : M unit :=
  if bool_decide (likedByUserId = memeAuthorId) then ret tt
  else if negb (truthy likedByUserId) || negb (truthy memeAuthorId)
          || negb (truthy memeId) || negb (truthy memeTitle)
  then console_error "Invalid parameters for like notification:"
  else
    tryCatch
      (now <~ Date_now ;;
       let notificationData :=
         mkNotificationInput memeAuthorId likedByUserId Like (Some memeId)
           "liked your meme" (Some false) (Some now)
           (Some (mkMetadata (Some (substring0 100 memeTitle))
                             None None None)) in
       createNotification notificationData ;;;
       ret tt)
      (λ error,
         console_error "Error creating like notification:" ;;;
         console_error "Full error details:").

Definition createCommentNotification
    (commentByUserId memeAuthorId memeId memeTitle commentText : string)
    : M unit :=
  if bool_decide (commentByUserId = memeAuthorId) then ret tt
  else
    tryCatch
      (now <~ Date_now ;;
       createNotification
         (mkNotificationInput memeAuthorId commentByUserId Comment
            (Some memeId) "commented on your meme" (Some false) (Some now)
            (Some (mkMetadata (Some memeTitle)
                              (Some (substring0 100 commentText))
                              None None))) ;;;
       ret tt)
      (λ error, console_error "Error creating comment notification:").

Definition createReplyNotification
    (replyByUserId originalCommentUserId memeId memeTitle replyText : string)
    : M unit :=
  if bool_decide (replyByUserId = originalCommentUserId) then ret tt
  else
    tryCatch
      (now <~ Date_now ;;
       createNotification
         (mkNotificationInput originalCommentUserId replyByUserId Reply
            (Some memeId) "replied to your comment" (Some false) (Some now)
            (Some (mkMetadata (Some memeTitle)
                              (Some (substring0 100 replyText))
                              None None))) ;;;
       ret tt)
      (λ error, console_error "Error creating reply notification:").

Definition dquote : string := String "034"%char "".

Definition createAchievementNotification
    (userId achievementName achievementIcon : string) : M unit :=
  tryCatch
    (now <~ Date_now ;;
     createNotification
       (mkNotificationInput userId userId Achievement None
          ("unlocked the " +:+ dquote +:+ achievementName +:+ dquote
             +:+ " achievement!")
          (Some false) (Some now)
          (Some (mkMetadata None None (Some achievementName)
                            (Some achievementIcon)))) ;;;
     ret tt)
    (λ error, console_error "Error creating achievement notification:").

Definition cleanupOldNotifications : M unit :=
  tryCatch
    (now <~ Date_now ;;
     let thirtyDaysAgo := (now - 30 * 24 * 60 * 60 * 1000)%Z in
     docs <~ getDocs_notifications
               (mkQuery [CreatedAtLt thirtyDaysAgo] None None) ;;
     commit (map (λ doc, DeleteNotification doc.1) docs))
    (λ error, console_error "Error cleaning up old notifications:").

End NotificationService.

(** ** ChatModal: starting a chat *)

Module ChatModal.

(** White space removed by [String.prototype.trim], within the 8-bit
    code units. *)
Definition isTrimmed (c : ascii) : bool :=
  Ascii.is_space c || bool_decide (c = "160"%char).

Fixpoint dropSpaces (l : list ascii) : list ascii :=
  match l with
  | c :: l' => if isTrimmed c then dropSpaces l' else l
  | [] => []
  end.

(** [s.trim()] *)
Definition trim (s : string) : string :=
  string_of_list_ascii
    (rev (dropSpaces (rev (dropSpaces (list_ascii_of_string s))))).

(** [handleStartChat], from its first line to the point where the room is
    obtained: [user] is the signed-in user's uid if any, and
    [selectedUsers], [isGroup], [groupName] are the component's state.
    The result is the room handed to [setCurrentChat], if one was
    obtained.  The loading flag, the switch to the chat step and the
    optional meme sent afterwards are left out. *)
Definition handleStartChat (user : option string)
    (selectedUsers : list string) (isGroup : bool) (groupName : string)
    : M (option ChatRoom) :=
  match user, selectedUsers with
  | None, _ => ret None
  | _, [] => ret None
  | Some uid, first :: _ =>
      tryCatch
        (if isGroup && bool_decide (1 < length selectedUsers)
         then
           if bool_decide (trim groupName = "")
           then toast_error "Please enter a group name" ;;; ret None
           else
             chat <~ ChatService.createGroupChat uid selectedUsers
                       groupName ;;
             ret (Some chat)
         else
           chat <~ ChatService.createDirectChat uid first ;;
           ret (Some chat))
        (λ error,
           console_error "Error starting chat:" ;;;
           toast_error "Failed to start chat" ;;;
           ret None)
  end.

(** [handleUserSelect]: the function it passes to [setSelectedUsers],
    applied to the previous selection [prev].  In group mode the user is
    toggled; otherwise the selection becomes that user alone. *)
Definition handleUserSelect (isGroup : bool) (userId : string)
    (prev : list string) : list string :=
  if isGroup
  then if bool_decide (userId ∈ prev)
       then filter (λ id, id ≠ userId) prev
       else prev ++ [userId]
  else [userId].

End ChatModal.

(** ** ShareButton: the name of a downloaded meme *)

Module ShareButton.

(** The characters kept by [/[^a-z0-9]/gi]: letters of either case and
    digits. *)
Definition isAlnum (c : ascii) : bool :=
  let n := nat_of_ascii c in
  (Nat.leb 97 n && Nat.leb n 122) || (Nat.leb 65 n && Nat.leb n 90)
  || (Nat.leb 48 n && Nat.leb n 57).

(** [toLowerCase] on one code unit, within the characters that [replace]
    leaves: capital letters are lowered, everything else stays. *)
Definition toLower (c : ascii) : ascii :=
  let n := nat_of_ascii c in
  if Nat.leb 65 n && Nat.leb n 90 then ascii_of_nat (n + 32) else c.

Fixpoint mapString (f : ascii → ascii) (s : string) : string :=
  match s with
  | EmptyString => EmptyString
  | String c s' => String (f c) (mapString f s')
  end.

(** [memeTitle.replace(/[^a-z0-9]/gi, '_').toLowerCase()] *)
Definition fileStem (memeTitle : string) : string :=
  mapString toLower
    (mapString (λ c, if isAlnum c then c else "_"%char) memeTitle).

(** [link.download] in [downloadMeme] *)
Definition downloadName (memeTitle : string) : string :=
  fileStem memeTitle +:+ "_meme.jpg".

End ShareButton.

(** ** Notions used in the statements *)

Definition isReturn {A} (o : Outcome A) : bool :=
  match o with Return _ => true | Throw _ => false end.

(** Whether the coming store call goes through. *)
Definition nextCallSucceeds (w : World) : bool :=
  match faults w with
  | true :: _ => false
  | _ => true
  end.

(** The summary of a message as kept on its room. *)
Definition summaryOf (m : ChatMessage) : LastMessage :=
  mkLastMessage (text m) (senderId m) (timestamp m) (msg_type m).

(** A room whose [lastMessage] and [lastActivity] reflect message [m], all
    other fields as in [r]. *)
Definition withSummary (m : ChatMessage) (r : ChatRoom) : ChatRoom :=
  mkChatRoom (room_id r) (room_name r) (room_type r) (participants r)
             (createdBy r) (createdAt r) (Some (summaryOf m)) (timestamp m)
             (isActive r).

(** Both writes of a send are in [d'], and nothing else changed from [d]. *)
Definition bothWritten (m : ChatMessage) (room : ChatRoom) (d d' : Db) : Prop :=
  chatMessages d' = <[msg_id m := m]> (chatMessages d) ∧
  chatRooms d' = <[chatId m := withSummary m room]> (chatRooms d) ∧
  notifications d' = notifications d.

(** A world for running the coordinators on concrete stores: store [d],
    the given outcomes of the coming store calls, a clock that starts at
    1000 and advances by one at each reading, and generated ids
    [auto0], [auto1], ... *)
Definition worldOf (d : Db) (fs : list bool) : World :=
  mkWorld d fs (λ n, 1000 + Z.of_nat n)%Z 0 (λ n, "auto" +:+ pretty n) 0 [] [].

(** The world after [doc(collection(...))] and one [Date.now()]. *)
Definition afterIdAndClock (w : World) : World :=
  mkWorld (db w) (faults w) (clock w) (S (clockReads w)) (autoId w)
          (S (idsTaken w)) (console w) (toasts w).

(** The two ways a send can end, for a message of the given chat, sender,
    body, kind and attachment, started in world [w]: the message was built
    with [readBy = [sender]] and both the message and the room's summary
    were written; or an error was thrown and the store is as it was. *)
Definition sendOutcome (chat sender body : string) (kind : MessageType)
    (meme : option MemeData) (w : World)
    (r : Outcome ChatMessage * World) : Prop :=
  (∃ m room,
      r.1 = Return m ∧
      chatId m = chat ∧ senderId m = sender ∧ text m = body ∧
      msg_type m = kind ∧ memeData m = meme ∧
      readBy m = [sender] ∧
      chatRooms (db w) !! chat = Some room ∧
      bothWritten m room (db w) (db r.2))
  ∨ (∃ e, r.1 = Throw e ∧ db r.2 = db w).

(** *** Direct rooms *)

(** An active direct room of the unordered pair [{a, b}]. *)
Definition isDirectRoomOf (a b : string) (r : ChatRoom) : bool :=
  bool_decide (room_type r = Direct) && isActive r &&
  bool_decide (participants r = [a; b] ∨ participants r = [b; a]).

(** The stored active direct rooms of the pair, each with its document id. *)
Definition activeDirectRooms (a b : string) (d : Db)
    : list (string * ChatRoom) :=
  filter (λ kr, isDirectRoomOf a b kr.2 = true) (map_to_list (chatRooms d)).

(** The claim about two calls of [createDirectChat] for the pair [{a, b}],
    the second with the arguments [(c, d)], started in world [w]: both
    return a room, of the same identity, and the store is left with exactly
    one active direct room of the pair. *)
Definition twiceYieldsOneActiveRoom (a b c d : string) (w : World) : Prop :=
  let r1 := ChatService.createDirectChat a b w in
  let r2 := ChatService.createDirectChat c d r1.2 in
  ∃ x1 x2,
    r1.1 = Return x1 ∧ r2.1 = Return x2 ∧ room_id x1 = room_id x2 ∧
    length (activeDirectRooms a b (db r2.2)) = 1.

(** The document under the pair's derived id, if there is one, is the
    pair's active direct room, and no active direct room of the pair is
    kept under another id. *)
Definition directSlotSound (a b : string) (d : Db) : Prop :=
  (∀ r, chatRooms d !! ChatService.directChatId a b = Some r →
        isDirectRoomOf a b r = true) ∧
  (∀ k r, chatRooms d !! k = Some r → isDirectRoomOf a b r = true →
          k = ChatService.directChatId a b).

(** The world reached from the empty store by creating the direct chat of
    alice and bob and then deleting (deactivating) that room. *)
Definition deactivatedWorld : World :=
  let w0 := worldOf emptyDb [] in
  let w1 := (ChatService.createDirectChat "alice" "bob" w0).2 in
  (ChatService.deleteChatRoom (ChatService.directChatId "alice" "bob") w1).2.

(** *** Unread messages *)

(** The unread count in the spec's words: the number of messages, across
    all active chats whose participants include [u], that were sent by
    someone else and whose [readBy] does not contain [u]. *)
Definition unreadIn (u : string) (chat : ChatRoom) (d : Db) : nat :=
  length (filter (λ km : string * ChatMessage,
                    chatId km.2 = room_id chat ∧ senderId km.2 ≠ u ∧
                    u ∉ readBy km.2)
                 (map_to_list (chatMessages d))).

Definition unreadCountSpec (u : string) (d : Db) : nat :=
  sum_list
    (map (λ kr : string * ChatRoom, unreadIn u kr.2 d)
         (filter (λ kr : string * ChatRoom,
                    isActive kr.2 = true ∧ u ∈ participants kr.2)
                 (map_to_list (chatRooms d)))).

(** The worlds of the spec's example: u1 opens a direct chat with u2 and
    sends "hi"; then u2 marks the chat as read. *)
Definition hiChat : string := ChatService.directChatId "u1" "u2".
Definition hiSent : World :=
  let w1 := (ChatService.createDirectChat "u1" "u2" (worldOf emptyDb [])).2 in
  (ChatService.sendMessage hiChat "u1" "U1" "hi" w1).2.
Definition hiRead : World := (ChatService.markChatAsRead hiChat "u2" hiSent).2.

(** *** Marking as read *)

Inductive MarkCall :=
  | MarkMessage (messageId userId : string)
  | MarkChat (chatId userId : string).

Definition runMark (c : MarkCall) : M unit :=
  match c with
  | MarkMessage k u => ChatService.markMessageAsRead k u
  | MarkChat k u => ChatService.markChatAsRead k u
  end.

(** A sequence of read-marking calls, one after the other. *)
Fixpoint runMarks (cs : list MarkCall) (w : World) : World :=
  match cs with
  | [] => w
  | c :: cs' => runMarks cs' (runMark c w).2
  end.

(** Message [m'] is [m] with a [readBy] that kept every member. *)
Definition readByGrew (m m' : ChatMessage) : Prop :=
  (∀ u, u ∈ readBy m → u ∈ readBy m') ∧
  msg_id m' = msg_id m ∧ chatId m' = chatId m ∧ senderId m' = senderId m ∧
  text m' = text m ∧ timestamp m' = timestamp m.

(** The messages [msgs'] are [msgs] with [u] united into the [readBy] of
    the documents listed in [l]. *)
Definition readByUnionOn (l : list string) (u : string)
    (msgs msgs' : gmap string ChatMessage) : Prop :=
  ∀ k, msgs' !! k =
       if decide (k ∈ l) then patchReadBy u <$> msgs !! k else msgs !! k.

(** What one read-marking call may do to the store: nothing, or unite the
    user into the [readBy] of some messages. *)
Definition markEffect (u : string) (d d' : Db) : Prop :=
  d' = d ∨
  ∃ l msgs', d' = mkDb (chatRooms d) msgs' (notifications d) ∧
             readByUnionOn l u (chatMessages d) msgs'.

Definition markUser (c : MarkCall) : string :=
  match c with MarkMessage _ u => u | MarkChat _ u => u end.

(** The query of [markChatAsRead]. *)
Definition markChatQuery (chat u : string) : Query MessageFilter MessageOrder :=
  mkQuery [ChatIdEq chat; ReadByNotIn [[u]]] None None.

(** The write of a read-marking call went through: [d'] is [d] after it. *)
Definition markApplied (c : MarkCall) (d d' : Db) : Prop :=
  match c with
  | MarkMessage k u =>
      ∃ m, chatMessages d !! k = Some m ∧
           d' = mkDb (chatRooms d) (<[k := patchReadBy u m]> (chatMessages d))
                     (notifications d)
  | MarkChat chat u =>
      ∃ msgs', d' = mkDb (chatRooms d) msgs' (notifications d) ∧
               readByUnionOn ((messagesOf (markChatQuery chat u) d).*1) u
                             (chatMessages d) msgs'
  end.

(** *** Notifications *)

(** The required fields of a notification are present. *)
Definition hasRequiredFields (n : NotificationInput) : bool :=
  NotificationService.truthy (i_userId n) &&
  NotificationService.truthyType (i_type n) &&
  NotificationService.truthy (i_message n).

(** Notification [x] was stored under its id and carries the fields of the
    input [n]; nothing else changed from [d] to [d']. *)
Definition notificationStored (n : NotificationInput) (x : NotificationData)
    (d d' : Db) : Prop :=
  d' = mkDb (chatRooms d) (chatMessages d) (<[n_id x := x]> (notifications d)) ∧
  n_userId x = i_userId n ∧ n_fromUserId x = i_fromUserId n ∧
  n_type x = i_type n ∧ n_targetId x = i_targetId n ∧
  n_message x = i_message n ∧ n_metadata x = i_metadata n.

(** A string of [n] letters a. *)
Definition letters (n : nat) : string :=
  string_of_list_ascii (repeat "a"%char n).

(** The metadata of the notification stored under [k], if any. *)
Definition storedMetadata (k : string) (w : World) : option Metadata :=
  match notifications (db w) !! k with
  | Some x => n_metadata x
  | None => None
  end.

(** *** Message subscriptions *)

(** All stored messages of a chat. *)
Definition chatMessagesOf (chat : string) (d : Db) : list ChatMessage :=
  (filter (λ km : string * ChatMessage, chatId km.2 = chat)
          (map_to_list (chatMessages d))).*2.

Definition byTimestamp : relation ChatMessage :=
  λ m1 m2, (timestamp m1 ≤ timestamp m2)%Z.





(** *** Queries and listings *)

(** The world after one store call that went through. *)
Definition afterCall (w : World) : World := set_faults (tail (faults w)) w.

(** The documents of a collection that satisfy all [where] clauses of a
    query, before ordering and cutting. *)
Definition hitsOf {A F O : Type} (matches : F → A → bool) (q : Query F O)
    (docs : gmap string A) : list (string * A) :=
  filter (λ kd, forallb (λ f, matches f kd.2) (q_where q) = true)
         (map_to_list docs).

(** The stored active rooms that have [u] among their participants. *)
Definition activeChatsOf (u : string) (d : Db) : list ChatRoom :=
  (filter (λ kr : string * ChatRoom,
             u ∈ participants kr.2 ∧ isActive kr.2 = true)
          (map_to_list (chatRooms d))).*2.

Definition byLastActivityDesc : relation ChatRoom :=
  λ r1 r2, (lastActivity r2 ≤ lastActivity r1)%Z.

(** The stored notifications addressed to [u]. *)
Definition notificationsFor (u : string) (d : Db) : list NotificationData :=
  (filter (λ kn : string * NotificationData, n_userId kn.2 = u)
          (map_to_list (notifications d))).*2.

Definition byCreatedAtDesc : relation NotificationData :=
  λ n1 n2, (n_createdAt n2 ≤ n_createdAt n1)%Z.

(** The stored unread notifications addressed to [u]. *)
Definition unreadNotifications (u : string) (d : Db)
    : list (string * NotificationData) :=
  filter (λ kn : string * NotificationData,
            n_userId kn.2 = u ∧ n_read kn.2 = false)
         (map_to_list (notifications d)).

(** *** Write paths that rethrow *)

(** The error code of a single write, if it fails: the store call does
    not go through, or the store refuses the write. *)
Definition writeFailure (accepted : bool) (w : World) : option string :=
  if nextCallSucceeds w
  then if accepted then None else Some "not-found"
  else Some "unavailable".

(** The error code of a query followed by one batch over its documents,
    if it fails: the query's store call does not go through, or there is
    something to commit and the commit's store call does not go through. *)
Definition batchFailure (nothingToCommit : bool) (w : World)
    : option string :=
  if nextCallSucceeds w
  then if nothingToCommit || nextCallSucceeds (afterCall w)
       then None else Some "unavailable"
  else Some "unavailable".

(** The error code of [createDirectChat], if it fails: the lookup gave no
    room, because there is none or because its store call did not go
    through, and the store call of the write that follows does not go
    through. *)
Definition createDirectChatFailure (a b : string) (w : World)
    : option string :=
  if nextCallSucceeds w &&
     bool_decide (is_Some (chatRooms (db w) !! ChatService.directChatId a b))
  then None
  else if nextCallSucceeds (afterCall w) then None else Some "unavailable".

(** A call returned when there is no failure; with a failure it threw the
    store error of that code, after writing the given console line and
    without changing the store [d]. *)
Definition rethrows {A} (failure : option string) (line : string) (d : Db)
    (r : Outcome A * World) : Prop :=
  match failure with
  | None => isReturn r.1 = true
  | Some code =>
      r.1 = Throw (StoreError code) ∧ db r.2 = d ∧
      head (console r.2) = Some line
  end.

(** The unread notifications of [u] and all notifications of [u], as
    [markAllAsRead] and [deleteAllNotifications] query them. *)
Definition unreadOf (u : string) (d : Db)
    : list (string * NotificationData) :=
  notificationsOf (mkQuery [UserIdEq u; ReadEq false] None None) d.
Definition allOf (u : string) (d : Db) : list (string * NotificationData) :=
  notificationsOf (mkQuery [UserIdEq u] None None) d.

(** A store with one notification created 30 days and 1 ms before the
    clock's first reading and one created exactly 30 days before it. *)
Definition oldNotification : NotificationData :=
  mkNotificationData "old" "u2" "u1" Like (Some "meme1") "liked your meme"
                     false 999 None.
Definition edgeNotification : NotificationData :=
  mkNotificationData "edge" "u2" "u1" Like (Some "meme1") "liked your meme"
                     false 1000 None.
Definition sweepWorld : World :=
  mkWorld (mkDb ∅ ∅ (<["old" := oldNotification]>
                       (<["edge" := edgeNotification]> ∅)))
          [] (λ n, 2592001000 + Z.of_nat n)%Z 0 (λ n, "auto" +:+ pretty n) 0
          [] [].

(** The characters a download name is made of. *)
Definition isSafeChar (c : ascii) : bool :=
  let n := nat_of_ascii c in
  (Nat.leb 97 n && Nat.leb n 122) || (Nat.leb 48 n && Nat.leb n 57)
  || bool_decide (c = "_"%char).

Fixpoint allChars (p : ascii → bool) (s : string) : bool :=
  match s with
  | EmptyString => true
  | String c s' => p c && allChars p s'
  end.

(** The store after u1 liked a meme of u2 on the empty store. *)
Definition likedWorld : World :=
  (NotificationService.createLikeNotification
     "u1" "u2" "meme1" "title" (worldOf emptyDb [])).2.

(** ** Basic facts about the store calls *)

Lemma commit_unfold op ops w :
  commit (op :: ops) w =
  match faults w with
  | true :: fs => (Throw (StoreError "unavailable"), set_faults fs w)
  | _ =>
      let w1 := set_faults (tail (faults w)) w in
      match applyWrites (op :: ops) (db w) with
      | Some d' => (Return tt, set_db d' w1)
      | None => (Throw (StoreError "not-found"), w1)
      end
  end.
Proof.
  unfold commit, bind, storeCall.
  destruct w as [d fs c cr a it co to]. cbn [faults db set_faults set_db].
  destruct fs as [|[] fs]; try reflexivity;
    destruct (applyWrites (op :: ops) d); reflexivity.
Qed.

(** A commit on any batch: an empty one returns at once. *)
Lemma commit_unfold_any ops w :
  commit ops w =
  match ops with
  | [] => (Return tt, w)
  | _ :: _ =>
      match faults w with
      | true :: fs => (Throw (StoreError "unavailable"), set_faults fs w)
      | _ =>
          let w1 := set_faults (tail (faults w)) w in
          match applyWrites ops (db w) with
          | Some d' => (Return tt, set_db d' w1)
          | None => (Throw (StoreError "not-found"), w1)
          end
      end
  end.
Proof. destruct ops as [|op ops]; [reflexivity|apply commit_unfold]. Qed.

(** ** Sending a message *)

(** What [sendMessage] and [sendMemeMessage] share: the message [m] is
    built from a generated id and one clock reading, then committed in
    one batch together with the room update. *)
Lemma send_batch_cases (chat : string) (m : ChatMessage) (patch : RoomPatch) w :
  chatId m = chat →
  patchRoom patch = withSummary m →
  let r := commit [SetMessage (msg_id m) m; UpdateRoom chat patch] w in
  (r.1 = Return tt ∧ nextCallSucceeds w = true ∧
     ∃ room, chatRooms (db w) !! chat = Some room ∧
             bothWritten m room (db w) (db r.2))
  ∨ (∃ e, r.1 = Throw e ∧ db r.2 = db w ∧
          nextCallSucceeds w && bool_decide (is_Some (chatRooms (db w) !! chat))
          = false).
Proof.
  intros Hc Hp r. subst r. rewrite commit_unfold.
  unfold nextCallSucceeds.
  destruct (faults w) as [|[] fs] eqn:Hf; simpl.
  - destruct (chatRooms (db w) !! chat) as [room|] eqn:Hr; simpl.
    + left. repeat split; eauto. exists room. split; [done|].
      unfold bothWritten; simpl. rewrite Hc, Hp. done.
    + right. eexists. repeat split; eauto.
  - right. eexists. repeat split; eauto.
  - destruct (chatRooms (db w) !! chat) as [room|] eqn:Hr; simpl.
    + left. repeat split; eauto. exists room. split; [done|].
      unfold bothWritten; simpl. rewrite Hc, Hp. done.
    + right. eexists. repeat split; eauto.
Qed.

Lemma sendMessage_unfold chat sender name body w :
  ChatService.sendMessage chat sender name body w =
  let m := mkChatMessage (autoId w (idsTaken w)) chat sender name body
                         TextMessage (clock w (clockReads w)) None [sender]
                         None None in
  let r := commit [SetMessage (msg_id m) m;
                   UpdateRoom chat (PatchLastMessage (summaryOf m) (timestamp m))]
                  (afterIdAndClock w) in
  match r.1 with
  | Return _ => (Return m, r.2)
  | Throw e => (Throw e, (console_error "Error sending message:" r.2).2)
  end.
Proof.
  unfold ChatService.sendMessage, tryCatch, bind at 1 2 3, newDocId, Date_now.
  cbn beta iota zeta. unfold afterIdAndClock, summaryOf. simpl.
  destruct (commit _ _) as [[[]|e] w3]; reflexivity.
Qed.

Lemma sendMemeMessage_unfold chat sender name meme w :
  ChatService.sendMemeMessage chat sender name meme w =
  let m := mkChatMessage (autoId w (idsTaken w)) chat sender name
                         ("Shared a meme: " +:+ title meme)
                         MemeMessage (clock w (clockReads w)) (Some meme)
                         [sender] None None in
  let r := commit [SetMessage (msg_id m) m;
                   UpdateRoom chat (PatchLastMessage (summaryOf m) (timestamp m))]
                  (afterIdAndClock w) in
  match r.1 with
  | Return _ => (Return m, r.2)
  | Throw e => (Throw e, (console_error "Error sending meme message:" r.2).2)
  end.
Proof.
  unfold ChatService.sendMemeMessage, tryCatch, bind at 1 2 3, newDocId,
    Date_now.
  cbn beta iota zeta. unfold afterIdAndClock, summaryOf. simpl.
  destruct (commit _ _) as [[[]|e] w3]; reflexivity.
Qed.

(** A message with [readBy = [sender]] committed in one batch with its
    room's summary ends in one of the two ways of [sendOutcome]. *)
Lemma send_cases (m : ChatMessage) (line : string) (w : World) :
  readBy m = [senderId m] →
  let r := commit [SetMessage (msg_id m) m;
                   UpdateRoom (chatId m)
                     (PatchLastMessage (summaryOf m) (timestamp m))]
                  (afterIdAndClock w) in
  let r' := match r.1 with
            | Return _ => (Return m, r.2)
            | Throw e => (Throw e, (console_error line r.2).2)
            end in
  sendOutcome (chatId m) (senderId m) (text m) (msg_type m) (memeData m) w r' ∧
  isReturn r'.1 =
    nextCallSucceeds w &&
    bool_decide (is_Some (chatRooms (db w) !! chatId m)).
Proof.
  intros Hread r r'.
  destruct (send_batch_cases (chatId m) m
              (PatchLastMessage (summaryOf m) (timestamp m))
              (afterIdAndClock w) eq_refl eq_refl)
    as [(Hr & Hs & room & Hroom & Hb) | (e & Hr & Hd & Hs)];
    fold r in Hr; subst r'.
  - rewrite Hr. simpl. split.
    + left. exists m, room. split_and!; done.
    + change (nextCallSucceeds w) with (nextCallSucceeds (afterIdAndClock w)).
      rewrite Hs. simpl in Hroom.
      rewrite bool_decide_eq_true_2; [done | by exists room].
  - fold r in Hd. rewrite Hr. simpl. split.
    + right. by exists e.
    + symmetry. exact Hs.
Qed.

(** C1.  [sendMessage] and [sendMemeMessage], for every chat id, sender and
    body and in every world, end in one of two ways: they return a message
    with [readBy = [senderId]], and the store then holds both that message
    and the parent room with [lastMessage] and [lastActivity] set to the
    message's text, sender, timestamp and kind; or they throw, and the
    store is unchanged.  Neither write is ever applied without the other.
    The first case is the one taken exactly when the commit call goes
    through and the room exists. *)
Theorem send_commits_message_and_summary_together
    (chat sender name body : string) (meme : MemeData) (w : World) :
  (sendOutcome chat sender body TextMessage None w
     (ChatService.sendMessage chat sender name body w) ∧
   isReturn (ChatService.sendMessage chat sender name body w).1 =
     nextCallSucceeds w && bool_decide (is_Some (chatRooms (db w) !! chat)))
  ∧
  (sendOutcome chat sender ("Shared a meme: " +:+ title meme) MemeMessage
     (Some meme) w
     (ChatService.sendMemeMessage chat sender name meme w) ∧
   isReturn (ChatService.sendMemeMessage chat sender name meme w).1 =
     nextCallSucceeds w && bool_decide (is_Some (chatRooms (db w) !! chat))).
Proof.
  split.
  - rewrite sendMessage_unfold.
    exact (send_cases (mkChatMessage _ chat sender name body TextMessage _
                                     None [sender] None None) _ w eq_refl).
  - rewrite sendMemeMessage_unfold.
    exact (send_cases (mkChatMessage _ chat sender name _ MemeMessage _
                                     (Some meme) [sender] None None) _ w
                      eq_refl).
Qed.

(** ** Direct chats *)

Lemma sortPair_comm a b : ChatService.sortPair a b = ChatService.sortPair b a.
Proof.
  unfold ChatService.sortPair, String.ltb.
  rewrite (String.compare_antisym a b).
  destruct (String.compare b a) eqn:Hc; simpl; try reflexivity.
  apply String.compare_eq_iff in Hc. by subst.
Qed.

Lemma directChatId_comm a b :
  ChatService.directChatId a b = ChatService.directChatId b a.
Proof. unfold ChatService.directChatId. by rewrite sortPair_comm. Qed.

(** With no failing store call ahead, [createDirectChat] returns the stored
    room when there is one, and otherwise stores and returns a new one. *)
Lemma createDirectChat_healthy a b w :
  faults w = [] →
  let r := ChatService.createDirectChat a b w in
  let k := ChatService.directChatId a b in
  faults r.2 = [] ∧
  match chatRooms (db w) !! k with
  | Some x => r.1 = Return x ∧ db r.2 = db w
  | None =>
      ∃ t1 t2,
        let x := mkChatRoom k None Direct [a; b] a t1 None t2 true in
        r.1 = Return x ∧
        db r.2 = mkDb (<[k := x]> (chatRooms (db w))) (chatMessages (db w))
                      (notifications (db w))
  end.
Proof.
  intros Hf.
  unfold ChatService.createDirectChat, ChatService.getDirectChat, getDoc_room,
    writeDoc, tryCatch, bind, storeCall, readDb, ret; simpl.
  rewrite Hf.
  destruct (chatRooms (db w) !! ChatService.directChatId a b) as [x|] eqn:Hx;
    simpl.
  - by rewrite Hf.
  - unfold Date_now, commit, bind, storeCall; simpl. rewrite Hf; simpl.
    split; [done|]. by eexists _, _.
Qed.

Lemma filter_none {A} (P : A → Prop) `{∀ x, Decision (P x)} (l : list A) :
  (∀ x, x ∈ l → ¬ P x) → filter P l = [].
Proof.
  intros Hno. destruct (filter P l) as [|x l'] eqn:Hfl; [done|].
  assert (x ∈ filter P l) as Hin by (rewrite Hfl; left).
  apply list_elem_of_filter in Hin as [HP Hin]. by destruct (Hno x Hin).
Qed.

(** A map in which exactly one key holds a value satisfying [P]. *)
Lemma filter_map_to_list_unique {A} (P : A → bool) (m : gmap string A) k x :
  m !! k = Some x →
  P x = true →
  (∀ k' y, m !! k' = Some y → P y = true → k' = k) →
  filter (λ kr, P kr.2 = true) (map_to_list m) = [(k, x)].
Proof.
  intros Hk HP Huniq.
  apply Permutation_singleton_r.
  rewrite <- (insert_delete_id m k x Hk) at 1.
  rewrite map_to_list_insert by apply lookup_delete_eq.
  rewrite filter_cons_True by done.
  assert (filter (λ kr : string * A, P kr.2 = true)
                 (map_to_list (delete k m)) = []) as ->; [|done].
  apply filter_none. intros [k' y] Hin.
  apply elem_of_map_to_list in Hin. simpl. intros HPy.
  destruct (decide (k' = k)) as [->|Hne].
  - by rewrite lookup_delete_eq in Hin.
  - rewrite lookup_delete_ne in Hin by done. eauto.
Qed.

(** Two different pairs can share a derived id, because the separator may
    occur in a user id; the second pair is then handed the room of the
    first. *)
Lemma directChatId_collision :
  ChatService.directChatId "x_y" "z" = ChatService.directChatId "x" "y_z" ∧
  let w1 := (ChatService.createDirectChat "x_y" "z" (worldOf emptyDb [])).2 in
  participants <$>
    match (ChatService.createDirectChat "x" "y_z" w1).1 with
    | Return room => Some room
    | Throw _ => None
    end
  = Some ["x_y"; "z"].
Proof. split; reflexivity. Qed.

(** C2, as stated, fails: once the pair's room has been deactivated by
    [deleteChatRoom], two further calls of [createDirectChat] return that
    inactive room and the store holds no active direct room of the pair. *)
Lemma createDirectChat_after_deactivation :
  ¬ twiceYieldsOneActiveRoom "alice" "bob" "bob" "alice" deactivatedWorld.
Proof.
  intros (x1 & x2 & _ & _ & _ & Hlen).
  vm_compute in Hlen. discriminate.
Qed.

(** C2, amended.  When no store call fails, two calls of
    [createDirectChat] for the same pair, the second with the arguments in
    either order, return one and the same room; it is the document stored
    under the pair's derived id, and the second call leaves the store as
    the first left it.  If no document was stored under that id before, the
    room is a new active direct room of the pair whose id is the derived
    id.  If moreover the document under the derived id, when there is one,
    is the pair's active direct room and none is kept elsewhere, the store
    ends with exactly one active direct room of the pair. *)
Theorem createDirectChat_twice (a b c d : string) (w : World) :
  faults w = [] →
  (c, d) = (a, b) ∨ (c, d) = (b, a) →
  let k := ChatService.directChatId a b in
  let r1 := ChatService.createDirectChat a b w in
  let r2 := ChatService.createDirectChat c d r1.2 in
  (∃ x, r1.1 = Return x ∧ r2.1 = Return x ∧
        chatRooms (db r2.2) !! k = Some x ∧
        db r2.2 = db r1.2 ∧
        (chatRooms (db w) !! k = None →
         room_id x = k ∧ isDirectRoomOf a b x = true)) ∧
  (directSlotSound a b (db w) → twiceYieldsOneActiveRoom a b c d w).
Proof.
  intros Hf Hcd k r1 r2.
  assert (ChatService.directChatId c d = k) as Hk.
  { destruct Hcd as [[= -> ->]|[= -> ->]]; [done|apply directChatId_comm]. }
  destruct (createDirectChat_healthy a b w Hf) as [Hf1 H1].
  fold r1 in Hf1, H1. fold k in H1.
  destruct (createDirectChat_healthy c d r1.2 Hf1) as [_ H2].
  fold r2 in H2. rewrite Hk in H2.
  assert (∃ x, r1.1 = Return x ∧ r2.1 = Return x ∧
               chatRooms (db r2.2) !! k = Some x ∧ db r2.2 = db r1.2 ∧
               (chatRooms (db w) !! k = None →
                room_id x = k ∧ isDirectRoomOf a b x = true) ∧
               (∀ k', k' ≠ k →
                      chatRooms (db r2.2) !! k' = chatRooms (db w) !! k') ∧
               (∀ y, chatRooms (db w) !! k = Some y → x = y))
    as (x & Hr1 & Hr2 & Hlook & Hdb & Hnew & Hother & Hold).
  { destruct (chatRooms (db w) !! k) as [x|] eqn:Hx.
    - destruct H1 as [Hr1 Hd1]. rewrite Hd1, Hx in H2.
      destruct H2 as [Hr2 Hd2]. exists x. split_and!; try done.
      + by rewrite Hd2.
      + congruence.
      + intros k' _. by rewrite Hd2.
      + by intros y [= ->].
    - destruct H1 as (t1 & t2 & Hr1 & Hd1). simpl in Hr1, Hd1.
      rewrite Hd1 in H2. simpl in H2. rewrite lookup_insert_eq in H2.
      destruct H2 as [Hr2 Hd2]. eexists. split_and!; try done.
      + rewrite Hd2. simpl. by rewrite lookup_insert_eq.
      + congruence.
      + intros _. split; [done|]. unfold isDirectRoomOf; simpl.
        rewrite bool_decide_eq_true_2; [done | by left].
      + intros k' Hne. rewrite Hd2. simpl. by rewrite lookup_insert_ne. }
  split.
  - exists x. by split_and!.
  - intros [Hslot Huniq].
    assert (activeDirectRooms a b (db r2.2) = [(k, x)]) as Hone;
      [| exists x, x; split_and!; try done; exact (f_equal length Hone)].
    apply (filter_map_to_list_unique (isDirectRoomOf a b) _ k x Hlook).
    + destruct (chatRooms (db w) !! k) as [y|] eqn:Hy.
      * rewrite (Hold y eq_refl). by apply Hslot.
      * by apply Hnew.
    + intros k' y Hy HP. destruct (decide (k' = k)) as [|Hne]; [done|].
      rewrite Hother in Hy by done. eauto.
Qed.

(** The amended statement at alice and bob on the empty store, the second
    call with the arguments swapped. *)
Lemma createDirectChat_twice_witness :
  twiceYieldsOneActiveRoom "alice" "bob" "bob" "alice" (worldOf emptyDb []).
Proof.
  apply (createDirectChat_twice "alice" "bob" "bob" "alice"
           (worldOf emptyDb [])).
  - reflexivity.
  - right; reflexivity.
  - split; simpl; intros *; rewrite lookup_empty; discriminate.
Defined.

(** ** Unread count *)

(** The loop of [getUnreadMessageCount] stops at its first chat: building
    the query throws before any store call. *)
Lemma countUnread_refused u chats acc w :
  ChatService.countUnread u chats acc w =
  match chats with
  | [] => (Return acc, w)
  | _ :: _ => (Throw (StoreError "invalid-argument"), w)
  end.
Proof. destruct chats; reflexivity. Qed.

(** The other queries of [ChatService] on [chatMessages] pass the check of
    [query(...)]. *)
Lemma other_message_queries_accepted c u n :
  refusedClauses [ChatIdEq c] = false ∧
  refusedClauses [ChatIdEq c; ReadByNotIn [[u]]] = false ∧
  refusedClauses (q_where (ChatService.messagesQuery c)) = false ∧
  refusedClauses
    (q_where (mkQuery [ChatIdEq c] (Some (ByTimestamp, Desc)) (Some n)))
  = false.
Proof. split_and!; reflexivity. Qed.

(** C3: the code against the claim.  The query [getUnreadMessageCount]
    builds for a chat joins a [!=] clause on [senderId] with a [not-in]
    clause on [readBy]; [query(...)] refuses that pair inside the [try],
    before any store call, and the handler answers 0.  So
    [getUnreadMessageCount] answers 0 for every user in every state, and
    leaves the store as it was.  On the spec's own example, after u1 sent
    "hi" to u2 and before u2 marked anything as read, the message's
    [readBy] is [u1] and the claim's count for u2 is 1, while the code
    writes its console line and answers 0. *)
Theorem getUnreadMessageCount_always_answers_zero :
  (∀ c u w, query_messages (ChatService.unreadQuery c u) w
            = (Throw (StoreError "invalid-argument"), w)) ∧
  (∀ u w, (ChatService.getUnreadMessageCount u w).1 = Return 0 ∧
          db (ChatService.getUnreadMessageCount u w).2 = db w) ∧
  readBy <$> (chatMessages (db hiSent) !! "auto0") = Some ["u1"] ∧
  unreadCountSpec "u2" (db hiSent) = 1 ∧
  (ChatService.getUnreadMessageCount "u2" hiSent).1 = Return 0 ∧
  head (console (ChatService.getUnreadMessageCount "u2" hiSent).2)
  = Some "Error getting unread message count:".
Proof.
  split_and!; [reflexivity| |vm_compute; reflexivity..].
  intros u w.
  unfold ChatService.getUnreadMessageCount, ChatService.getUserChats,
    getDocs_rooms, tryCatch, bind, storeCall, readDb, ret, console_error.
  destruct (faults w) as [|[] fs]; cbn [fst snd];
    rewrite ?countUnread_refused;
    try (destruct (roomsOf _ _).*2 as [|chat chats]); split; reflexivity.
Qed.

(** ** Read marks *)

Lemma arrayUnion_elem u l : u ∈ arrayUnion u l.
Proof.
  unfold arrayUnion. case_bool_decide; [done|].
  apply elem_of_app; right; left.
Qed.

Lemma arrayUnion_keeps u l x : x ∈ l → x ∈ arrayUnion u l.
Proof.
  unfold arrayUnion. case_bool_decide; [done|].
  intros; apply elem_of_app; by left.
Qed.

Lemma arrayUnion_present u l : u ∈ l → arrayUnion u l = l.
Proof. intros. unfold arrayUnion. by rewrite bool_decide_eq_true_2. Qed.

Lemma arrayUnion_idemp u l : arrayUnion u (arrayUnion u l) = arrayUnion u l.
Proof. apply arrayUnion_present, arrayUnion_elem. Qed.

Lemma patchReadBy_present u m : u ∈ readBy m → patchReadBy u m = m.
Proof.
  intros. unfold patchReadBy. rewrite arrayUnion_present by done.
  by destruct m.
Qed.

Lemma patchReadBy_idemp u m : patchReadBy u (patchReadBy u m) = patchReadBy u m.
Proof. apply patchReadBy_present. simpl. apply arrayUnion_elem. Qed.

Lemma readByGrew_refl m : readByGrew m m.
Proof. by split_and!. Qed.

Lemma readByGrew_trans m1 m2 m3 :
  readByGrew m1 m2 → readByGrew m2 m3 → readByGrew m1 m3.
Proof.
  intros (Ha & ? & ? & ? & ? & ?) (Hb & ? & ? & ? & ? & ?).
  split_and!; [auto | congruence..].
Qed.

Lemma readByGrew_patch u m : readByGrew m (patchReadBy u m).
Proof. split_and!; try done. intros x. apply arrayUnion_keeps. Qed.

(** A batch of [readBy] updates on documents that exist goes through and
    unites the user into exactly the listed documents. *)
Lemma applyWrites_readBy u (l : list string) (d : Db) :
  (∀ k, k ∈ l → is_Some (chatMessages d !! k)) →
  ∃ msgs',
    applyWrites (map (λ k, UpdateReadBy k u) l) d
      = Some (mkDb (chatRooms d) msgs' (notifications d)) ∧
    readByUnionOn l u (chatMessages d) msgs'.
Proof.
  revert d. induction l as [|k l IH]; intros d Hall.
  - exists (chatMessages d). split; [by destruct d|].
    intros k. by rewrite decide_False by apply not_elem_of_nil.
  - destruct (Hall k) as [m Hm]; [left|]. simpl. rewrite Hm.
    set (d1 := mkDb _ _ _).
    destruct (IH d1) as (msgs' & Happ & Hun).
    { intros k' Hk'. simpl.
      destruct (decide (k = k')) as [->|Hne].
      - rewrite lookup_insert_eq. by eexists.
      - rewrite lookup_insert_ne by done. apply Hall. by right. }
    exists msgs'. split; [exact Happ|].
    intros k'. rewrite (Hun k'). simpl.
    destruct (decide (k = k')) as [->|Hne].
    + rewrite lookup_insert_eq, Hm. simpl.
      rewrite (decide_True (P := k' ∈ k' :: l)) by left.
      case_decide; [by rewrite patchReadBy_idemp | done].
    + rewrite lookup_insert_ne by done.
      destruct (decide (k' ∈ l)) as [Hin|Hnin].
      * by rewrite (decide_True (P := k' ∈ k :: l)) by (by right).
      * rewrite (decide_False (P := k' ∈ k :: l)); [done|].
        intros [?|?]%elem_of_cons; congruence.
Qed.

Lemma readByUnionOn_grew l u msgs msgs' k m :
  readByUnionOn l u msgs msgs' → msgs !! k = Some m →
  ∃ m', msgs' !! k = Some m' ∧ readByGrew m m'.
Proof.
  intros Hun Hm. rewrite (Hun k), Hm. case_decide; simpl.
  - eexists; split; [done|]. apply readByGrew_patch.
  - eexists; split; [done|]. apply readByGrew_refl.
Qed.

Lemma markEffect_grew u d d' k m :
  markEffect u d d' → chatMessages d !! k = Some m →
  ∃ m', chatMessages d' !! k = Some m' ∧ readByGrew m m'.
Proof.
  intros [->|(l & msgs' & -> & Hun)] Hm.
  - exists m. split; [done|]. apply readByGrew_refl.
  - simpl. by eapply readByUnionOn_grew.
Qed.

Lemma messagesOf_elem q d k m :
  q_orderBy q = None → q_limit q = None →
  (k, m) ∈ messagesOf q d ↔
  chatMessages d !! k = Some m ∧
  forallb (λ f, messageMatches f m) (q_where q) = true.
Proof.
  intros Ho Hl. unfold messagesOf, runQuery. rewrite Ho, Hl.
  rewrite list_elem_of_filter, elem_of_map_to_list. simpl. tauto.
Qed.

Lemma markApplied_effect c d d' :
  markApplied c d d' → markEffect (markUser c) d d'.
Proof.
  destruct c as [k u|chat u]; simpl.
  - intros (m & Hm & ->). right. exists [k]. eexists. split; [done|].
    intros k'. destruct (decide (k' = k)) as [->|Hne].
    + rewrite lookup_insert_eq, Hm. by rewrite decide_True by left.
    + rewrite lookup_insert_ne by done.
      rewrite decide_False; [done|]. by intros ->%list_elem_of_singleton.
  - intros (msgs' & -> & Hun). right. by eexists _, _.
Qed.

Lemma markMessageAsRead_effect k u w :
  let r := ChatService.markMessageAsRead k u w in
  r.1 = Return tt ∧
  (db r.2 = db w ∨ markApplied (MarkMessage k u) (db w) (db r.2)) ∧
  (faults w = [] →
   faults r.2 = [] ∧
   db r.2 = match chatMessages (db w) !! k with
            | Some m => mkDb (chatRooms (db w))
                             (<[k := patchReadBy u m]> (chatMessages (db w)))
                             (notifications (db w))
            | None => db w
            end).
Proof.
  unfold ChatService.markMessageAsRead, writeDoc, tryCatch.
  rewrite commit_unfold. simpl.
  destruct (faults w) as [|[] fs] eqn:Hf; simpl.
  - destruct (chatMessages (db w) !! k) as [m|] eqn:Hm; simpl.
    + split_and!; [done| |by intros _]. right. by exists m.
    + split_and!; [done|by left|by intros _].
  - split_and!; [done|by left|discriminate].
  - destruct (chatMessages (db w) !! k) as [m|] eqn:Hm; simpl.
    + split_and!; [done| |discriminate]. right. by exists m.
    + split_and!; [done|by left|discriminate].
Qed.

(** The batch of [markChatAsRead], once the query has answered [docs]. *)
Lemma markChat_batch chat u (d : Db) :
  let docs := messagesOf (markChatQuery chat u) d in
  ∃ msgs',
    applyWrites (map (λ doc : string * ChatMessage, UpdateReadBy doc.1 u) docs) d
      = Some (mkDb (chatRooms d) msgs' (notifications d)) ∧
    readByUnionOn (docs.*1) u (chatMessages d) msgs'.
Proof.
  intros docs.
  destruct (applyWrites_readBy u (docs.*1) d) as (msgs' & Happ & Hun).
  { intros k ((k' & m) & -> & Hin)%list_elem_of_fmap.
    apply messagesOf_elem in Hin as [Hm _]; [|done..]. by exists m. }
  exists msgs'. split; [|done].
  rewrite <- Happ. f_equal. clear.
  generalize docs. intros l. induction l as [|doc l IHl]; simpl; [done|].
  by rewrite IHl.
Qed.

Lemma markChatAsRead_unfold chat u w :
  ChatService.markChatAsRead chat u w =
  match faults w with
  | true :: fs =>
      console_error "Error marking chat as read:" (set_faults fs w)
  | _ =>
      tryCatch
        (commit (map (λ doc : string * ChatMessage, UpdateReadBy doc.1 u)
                     (messagesOf (markChatQuery chat u) (db w))))
        (λ _, console_error "Error marking chat as read:")
        (set_faults (tail (faults w)) w)
  end.
Proof.
  unfold ChatService.markChatAsRead, getDocs_messages, tryCatch, bind,
    storeCall, readDb, ret.
  fold (markChatQuery chat u).
  destruct w as [d fs c cr a it co to]; simpl.
  destruct fs as [|[] fs]; reflexivity.
Qed.

Lemma markChatAsRead_effect chat u w :
  let r := ChatService.markChatAsRead chat u w in
  r.1 = Return tt ∧
  (db r.2 = db w ∨ markApplied (MarkChat chat u) (db w) (db r.2)) ∧
  (faults w = [] →
   faults r.2 = [] ∧ markApplied (MarkChat chat u) (db w) (db r.2)).
Proof.
  intros r. pose proof (markChatAsRead_unfold chat u w) as Hr.
  fold r in Hr. clearbody r. subst r.
  destruct (markChat_batch chat u (db w)) as (msgs' & Happ & Hun).
  unfold tryCatch. rewrite commit_unfold_any.
  set (ops := map (λ doc : string * ChatMessage, UpdateReadBy doc.1 u)
                  (messagesOf (markChatQuery chat u) (db w))) in *.
  destruct ops as [|op ops'].
  - simpl in Happ. injection Happ as Hd.
    assert (markApplied (MarkChat chat u) (db w) (db w)) as Happlied
      by (by exists msgs').
    destruct (faults w) as [|[] fs] eqn:Hf; simpl;
      (split_and!; [done|by left|]); first [discriminate | by intros _].
  - cbv zeta. cbn [db faults set_faults set_db tail].
    destruct (faults w) as [|[] fs] eqn:Hf;
      cbn [db faults set_faults set_db tail].
    + rewrite Happ. simpl.
      split_and!; [done| |intros _; split; [done|]].
      * right. by exists msgs'.
      * by exists msgs'.
    + split_and!; [done|by left|discriminate].
    + destruct fs as [|[] fs']; cbn [db faults set_faults set_db tail];
        rewrite ?Happ; simpl;
        (split_and!; [done| |discriminate]);
        first [by left | right; by exists msgs'].
Qed.

(** Every read-marking call returns normally, and its write is either
    applied or lost whole. *)
Lemma runMark_outcome c w :
  (runMark c w).1 = Return tt ∧
  (db (runMark c w).2 = db w ∨ markApplied c (db w) (db (runMark c w).2)).
Proof.
  destruct c as [k u|k u]; simpl.
  - destruct (markMessageAsRead_effect k u w) as (? & ? & _). done.
  - destruct (markChatAsRead_effect k u w) as (? & ? & _). done.
Qed.

Lemma runMark_effect c w :
  markEffect (markUser c) (db w) (db (runMark c w).2).
Proof.
  destruct (runMark_outcome c w) as [_ [->|Happ]].
  - by left.
  - by apply markApplied_effect.
Qed.

Lemma runMarks_grew cs w k m :
  chatMessages (db w) !! k = Some m →
  ∃ m', chatMessages (db (runMarks cs w)) !! k = Some m' ∧ readByGrew m m'.
Proof.
  revert w m. induction cs as [|c cs IH]; intros w m Hm; simpl.
  - exists m. split; [done|apply readByGrew_refl].
  - pose proof (runMark_effect c w) as Heff.
    destruct (markEffect_grew _ _ _ k m Heff Hm) as (m1 & Hm1 & Hg1).
    destruct (IH _ m1 Hm1) as (m' & Hm' & Hg).
    exists m'. split; [done|]. by eapply readByGrew_trans.
Qed.

(** Applying the same mark to a store it was already applied to changes
    nothing. *)
Lemma markApplied_idemp c d d1 d2 :
  markApplied c d d1 → markApplied c d1 d2 → d2 = d1.
Proof.
  destruct c as [k u|chat u]; simpl.
  - intros (m & Hm & ->) (m1 & Hm1 & ->). simpl in *.
    rewrite lookup_insert_eq in Hm1. injection Hm1 as <-.
    by rewrite patchReadBy_idemp, insert_insert_eq.
  - intros (msgs1 & -> & Hun1) (msgs2 & -> & Hun2). simpl in *. f_equal.
    apply map_eq. intros k. rewrite (Hun2 k).
    case_decide as Hin; [|done].
    apply list_elem_of_fmap in Hin as ((k' & m1) & -> & Hin). simpl.
    apply messagesOf_elem in Hin as [Hm1 Hmatch]; [|done..].
    simpl in Hm1. rewrite Hm1. simpl. f_equal. apply patchReadBy_present.
    rewrite (Hun1 k') in Hm1.
    case_decide as Hin1.
    + destruct (chatMessages d !! k') as [m|]; simplify_eq/=.
      apply arrayUnion_elem.
    + exfalso. apply Hin1. apply list_elem_of_fmap. exists (k', m1).
      split; [done|]. apply messagesOf_elem; [done..|].
      split; [done|exact Hmatch].
Qed.

(** Whatever store calls fail, a repeated mark call can change the store
    only if the first call was lost. *)
Lemma runMark_twice c w :
  db (runMarks [c; c] w) = db (runMarks [c] w) ∨ db (runMarks [c] w) = db w.
Proof.
  simpl.
  destruct (runMark_outcome c w) as [_ [H1|H1]]; [by right|].
  destruct (runMark_outcome c (runMark c w).2) as [_ [H2|H2]]; [by left|].
  left. by eapply markApplied_idemp.
Qed.

Lemma runMark_twice_healthy c w :
  faults w = [] → db (runMarks [c; c] w) = db (runMarks [c] w).
Proof.
  intros Hf. simpl. destruct c as [k u|chat u]; simpl.
  - destruct (markMessageAsRead_effect k u w) as (_ & _ & H1).
    destruct (H1 Hf) as [Hf1 Hd1].
    destruct (markMessageAsRead_effect k u
                (ChatService.markMessageAsRead k u w).2) as (_ & _ & H2).
    destruct (H2 Hf1) as [_ Hd2]. rewrite Hd2. clear H1 H2 Hd2.
    rewrite Hd1.
    destruct (chatMessages (db w) !! k) as [m|] eqn:Hm; simpl.
    + rewrite lookup_insert_eq, patchReadBy_idemp, insert_insert_eq. done.
    + by rewrite Hm.
  - destruct (markChatAsRead_effect chat u w) as (_ & _ & H1).
    destruct (H1 Hf) as [Hf1 Happ1].
    destruct (markChatAsRead_effect chat u
                (ChatService.markChatAsRead chat u w).2) as (_ & _ & H2).
    destruct (H2 Hf1) as [_ Happ2].
    by eapply (markApplied_idemp (MarkChat chat u)).
Qed.

(** C4.  Across any sequence of [markMessageAsRead] / [markChatAsRead]
    calls, whatever store calls fail, every stored message stays stored,
    keeps its identity, chat, sender, text and timestamp, and its [readBy]
    keeps every member it had; in particular the sender stays in it.
    Performing a mark call twice leaves the same store as performing it
    once: always when the store calls go through, and otherwise unless the
    first call's write was lost, in which case the first call changed
    nothing. *)
Theorem readBy_only_grows_and_marks_are_idempotent :
  (∀ (cs : list MarkCall) (w : World) (k : string) (m : ChatMessage),
      chatMessages (db w) !! k = Some m →
      ∃ m', chatMessages (db (runMarks cs w)) !! k = Some m' ∧
            readByGrew m m' ∧
            (senderId m ∈ readBy m → senderId m' ∈ readBy m')) ∧
  (∀ (c : MarkCall) (w : World),
      faults w = [] →
      db (runMarks [c; c] w) = db (runMarks [c] w)) ∧
  (∀ (c : MarkCall) (w : World),
      db (runMarks [c; c] w) = db (runMarks [c] w) ∨
      db (runMarks [c] w) = db w).
Proof.
  split_and!.
  - intros cs w k m Hm.
    destruct (runMarks_grew cs w k m Hm) as (m' & Hm' & Hg).
    exists m'. split_and!; try done.
    destruct Hg as (Hsub & _ & _ & -> & _). apply Hsub.
  - apply runMark_twice_healthy.
  - apply runMark_twice.
Qed.

(** The statement of C4 on the example chat: the message sent by u1 keeps
    u1 in [readBy] through two mark calls, and marking the chat twice for
    u2 leaves the store that marking it once leaves. *)
Lemma readBy_only_grows_and_marks_are_idempotent_witness :
  (∃ m', chatMessages
           (db (runMarks [MarkMessage "auto0" "u2"; MarkChat hiChat "u1"]
                         hiSent)) !! "auto0" = Some m' ∧
         (∀ u, u ∈ ["u1"] → u ∈ readBy m')) ∧
  db (runMarks [MarkChat hiChat "u2"; MarkChat hiChat "u2"] hiSent)
  = db (runMarks [MarkChat hiChat "u2"] hiSent).
Proof.
  destruct readBy_only_grows_and_marks_are_idempotent as (Hgrow & Hidem & _).
  split.
  - destruct (Hgrow [MarkMessage "auto0" "u2"; MarkChat hiChat "u1"] hiSent
                "auto0"
                (mkChatMessage "auto0" hiChat "u1" "U1" "hi" TextMessage
                               1002 None ["u1"] None None))
      as (m' & Hm' & Hg & _).
    + vm_compute. reflexivity.
    + exists m'. split; [exact Hm'|apply Hg].
  - apply (Hidem (MarkChat hiChat "u2") hiSent). reflexivity.
Defined.

(** ** Notifications *)

Lemma substring0_short n s :
  String.length s ≤ n → NotificationService.substring0 n s = s.
Proof.
  unfold NotificationService.substring0.
  revert n. induction s as [|c s IH]; intros [|n] Hlen; simpl in *;
    try done; try lia.
  f_equal. apply IH. lia.
Qed.

Lemma substring0_long n s :
  n ≤ String.length s →
  String.length (NotificationService.substring0 n s) = n ∧
  String.prefix (NotificationService.substring0 n s) s = true.
Proof.
  unfold NotificationService.substring0.
  revert n. induction s as [|c s IH]; intros [|n] Hlen; simpl in *;
    try done; try lia.
  destruct (IH n) as [-> ->]; [lia|].
  split; [done|]. by destruct (ascii_dec c c).
Qed.

(** [createNotification] either stores the notification built from its
    input or throws and leaves the store as it was; it stores exactly when
    the required fields are present and the store call goes through. *)
Lemma createNotification_effect n w :
  let r := NotificationService.createNotification n w in
  ((∃ x, r.1 = Return (n_id x) ∧ notificationStored n x (db w) (db r.2))
   ∨ (∃ e, r.1 = Throw e ∧ db r.2 = db w)) ∧
  isReturn r.1 = hasRequiredFields n && nextCallSucceeds w.
Proof.
  intros r.
  assert (r = NotificationService.createNotification n w) as Hr by done.
  clearbody r.
  unfold NotificationService.createNotification, tryCatch, writeDoc in Hr.
  unfold hasRequiredFields, nextCallSucceeds, notificationStored.
  destruct (NotificationService.truthy (i_userId n)); simpl in *;
    [|subst r; split; [right; by eexists|done]].
  destruct (NotificationService.truthyType (i_type n)); simpl in *;
    [|subst r; split; [right; by eexists|done]].
  destruct (NotificationService.truthy (i_message n)); simpl in *;
    [|subst r; split; [right; by eexists|done]].
  unfold bind, newDocId in Hr.
  destruct (i_createdAt n) as [t|]; [case_bool_decide|];
    unfold Date_now, ret in Hr; rewrite commit_unfold in Hr; simpl in Hr;
    destruct (faults w) as [|[] fs]; simpl in Hr; subst r; simpl;
    (split; [|done]);
    first [ right; by eexists
          | left; eexists (mkNotificationData _ _ _ _ _ _ _ _ _);
            simpl; by split_and! ].
Qed.

Lemma tryCatch_returns (body : M unit) (h : Error → M unit) w :
  (∀ e w', (h e w').1 = Return tt) → (tryCatch body h w).1 = Return tt.
Proof.
  intros Hh. unfold tryCatch. destruct (body w) as [[[]|e] w']; simpl; auto.
Qed.

(** The shape shared by the event-driven constructors: read the clock,
    build the notification, create it, and swallow whatever is thrown in a
    handler that only writes to the console. *)
Lemma swallowing_constructor (mk : Z → NotificationInput)
    (h : Error → M unit) w :
  (∀ e w', (h e w').1 = Return tt ∧ db (h e w').2 = db w') →
  let r := tryCatch
             (now <~ Date_now ;;
              NotificationService.createNotification (mk now) ;;;
              ret tt) h w in
  let n := mk (clock w (clockReads w)) in
  r.1 = Return tt ∧
  if hasRequiredFields n && nextCallSucceeds w
  then ∃ x, notificationStored n x (db w) (db r.2)
  else db r.2 = db w.
Proof.
  intros Hh r n.
  assert (r = tryCatch
                (now <~ Date_now ;;
                 NotificationService.createNotification (mk now) ;;;
                 ret tt) h w) as Hr by done.
  clearbody r. unfold tryCatch, bind, Date_now, ret in Hr. simpl in Hr.
  fold n in Hr.
  set (w1 := mkWorld _ _ _ _ _ _ _ _) in Hr.
  destruct (createNotification_effect n w1) as [Hcases Hret].
  change (nextCallSucceeds w1) with (nextCallSucceeds w) in Hret.
  destruct (NotificationService.createNotification n w1) as [o w2].
  simpl in Hcases, Hret. rewrite <- Hret.
  destruct Hcases as [(x & -> & Hst)|(e & -> & Hdb)]; simpl in *; subst r;
    simpl.
  - split; [done|]. by exists x.
  - destruct (Hh e w2) as [-> ->]. done.
Qed.

Lemma console_error_quiet line w :
  (console_error line w).1 = Return tt ∧ db (console_error line w).2 = db w.
Proof. done. Qed.

Lemma console_error_twice_quiet l1 l2 w :
  ((console_error l1 ;;; console_error l2) w).1 = Return tt ∧
  db ((console_error l1 ;;; console_error l2) w).2 = db w.
Proof. done. Qed.

(** C6.  When the actor is the recipient, the like, comment and reply
    constructors return at once: nothing is created, nothing is thrown,
    and the world is exactly as before.  The achievement constructor
    either leaves the store unchanged or stores one notification, of kind
    achievement, whose [fromUserId] and [userId] are both the given user;
    it stores one exactly when the user id is not empty and the store call
    goes through. *)
Theorem self_notifications_suppressed_and_achievement_self_addressed
    (u memeId memeTitle body achievement icon : string) (w : World) :
  NotificationService.createLikeNotification u u memeId memeTitle w
    = (Return tt, w) ∧
  NotificationService.createCommentNotification u u memeId memeTitle body w
    = (Return tt, w) ∧
  NotificationService.createReplyNotification u u memeId memeTitle body w
    = (Return tt, w) ∧
  let r := NotificationService.createAchievementNotification
             u achievement icon w in
  r.1 = Return tt ∧
  if NotificationService.truthy u && nextCallSucceeds w
  then ∃ x, db r.2 = mkDb (chatRooms (db w)) (chatMessages (db w))
                          (<[n_id x := x]> (notifications (db w))) ∧
            n_type x = Achievement ∧
            n_userId x = u ∧ n_fromUserId x = u
  else db r.2 = db w.
Proof.
  unfold NotificationService.createLikeNotification,
    NotificationService.createCommentNotification,
    NotificationService.createReplyNotification.
  rewrite !bool_decide_eq_true_2 by done.
  split; [done|]. split; [done|]. split; [done|].
  pose proof (swallowing_constructor
    (λ now, mkNotificationInput u u Achievement None
       ("unlocked the " +:+ NotificationService.dquote +:+ achievement
          +:+ NotificationService.dquote +:+ " achievement!")
       (Some false) (Some now)
       (Some (mkMetadata None None (Some achievement) (Some icon))))
    (λ _, console_error "Error creating achievement notification:") w
    (λ e w', console_error_quiet _ w')) as [Hret Hdb].
  fold (NotificationService.createAchievementNotification u achievement icon)
    in Hret, Hdb.
  set (r := NotificationService.createAchievementNotification u achievement
              icon w) in *.
  split; [exact Hret|].
  unfold hasRequiredFields in Hdb. simpl in Hdb.
  rewrite !andb_true_r in Hdb.
  destruct (NotificationService.truthy u && nextCallSucceeds w); [|done].
  destruct Hdb as (x & Hst & Hu & Hfrom & Hty & _). simpl in *.
  exists x. by split_and!.
Qed.

(** C7.  Each event-driven constructor returns normally for every input
    and in every world, whatever the outcomes of the store calls: an error
    thrown by [createNotification] is caught and only written to the
    console. *)
Theorem event_constructors_never_throw
    (a b memeId memeTitle body icon : string) (w : World) :
  (NotificationService.createLikeNotification a b memeId memeTitle w).1
    = Return tt ∧
  (NotificationService.createCommentNotification a b memeId memeTitle body w).1
    = Return tt ∧
  (NotificationService.createReplyNotification a b memeId memeTitle body w).1
    = Return tt ∧
  (NotificationService.createAchievementNotification a body icon w).1
    = Return tt.
Proof.
  unfold NotificationService.createLikeNotification,
    NotificationService.createCommentNotification,
    NotificationService.createReplyNotification,
    NotificationService.createAchievementNotification.
  split_and!; repeat case_bool_decide; try done;
    repeat (match goal with |- context [if ?c then _ else _] =>
              destruct c; try done end);
    by apply tryCatch_returns.
Qed.

(** The failures that the constructors swallow are real:
    [createNotification] throws when the store call fails and when a
    required field is missing. *)
Lemma createNotification_throws :
  (NotificationService.createNotification
     (mkNotificationInput "u2" "u1" Like (Some "m1") "liked your meme"
        (Some false) (Some 5%Z) None)
     (worldOf emptyDb [true])).1
  = Throw (StoreError "unavailable") ∧
  (NotificationService.createNotification
     (mkNotificationInput "" "" Achievement None "unlocked" (Some false)
        (Some 5%Z) None)
     (worldOf emptyDb [])).1
  = Throw (JsError "Missing required notification fields").
Proof. split; reflexivity. Qed.

(** What the comment constructor stores when it stores: the title as
    given, the comment text cut at 100 code units. *)
Lemma createCommentNotification_stores a b memeId memeTitle body w :
  a ≠ b →
  NotificationService.truthy b = true →
  nextCallSucceeds w = true →
  ∃ x, db (NotificationService.createCommentNotification
             a b memeId memeTitle body w).2
       = mkDb (chatRooms (db w)) (chatMessages (db w))
              (<[n_id x := x]> (notifications (db w))) ∧
       n_metadata x =
         Some (mkMetadata (Some memeTitle)
                          (Some (NotificationService.substring0 100 body))
                          None None).
Proof.
  intros Hab Hb Hnext.
  unfold NotificationService.createCommentNotification.
  rewrite bool_decide_eq_false_2 by done.
  pose proof (swallowing_constructor
    (λ now, mkNotificationInput b a Comment (Some memeId)
       "commented on your meme" (Some false) (Some now)
       (Some (mkMetadata (Some memeTitle)
                (Some (NotificationService.substring0 100 body)) None None)))
    (λ _, console_error "Error creating comment notification:") w
    (λ e w', console_error_quiet _ w')) as [_ Hdb].
  unfold hasRequiredFields in Hdb. simpl in Hdb.
  rewrite Hb, Hnext in Hdb. simpl in Hdb.
  destruct Hdb as (x & Hst & _ & _ & _ & _ & _ & Hmeta).
  exists x. by split.
Qed.

(** C5: the code at a title and a text of 101 code units.  The comment
    and reply constructors store the quoted text cut to its first 100 code
    units but the title in full, all 101 code units of it; the like
    constructor stores the title cut to 100. *)
Theorem comment_and_reply_store_the_full_title :
  String.length (letters 101) = 101 ∧
  NotificationService.substring0 100 (letters 101) = letters 100 ∧
  storedMetadata "auto0"
    (NotificationService.createCommentNotification
       "u1" "u2" "meme1" (letters 101) (letters 101) (worldOf emptyDb [])).2
  = Some (mkMetadata (Some (letters 101)) (Some (letters 100)) None None) ∧
  storedMetadata "auto0"
    (NotificationService.createReplyNotification
       "u1" "u2" "meme1" (letters 101) (letters 101) (worldOf emptyDb [])).2
  = Some (mkMetadata (Some (letters 101)) (Some (letters 100)) None None) ∧
  storedMetadata "auto0"
    (NotificationService.createLikeNotification
       "u1" "u2" "meme1" (letters 101) (worldOf emptyDb [])).2
  = Some (mkMetadata (Some (letters 100)) None None None).
Proof. split_and!; vm_compute; reflexivity. Qed.

(** ** Store failures on the write paths *)

(** C8: the code where a store write fails.  [markMessageAsRead] and
    [markChatAsRead] return normally in every world; when their write
    fails the store is unchanged and the only trace is a console line.
    [NotificationService.markAsRead] and [ChatService.addParticipant], in
    the same situation, rethrow the error. *)
Theorem chat_mark_read_swallows_store_failure :
  (∀ k u w, (ChatService.markMessageAsRead k u w).1 = Return tt) ∧
  (∀ c u w, (ChatService.markChatAsRead c u w).1 = Return tt) ∧
  (let r := ChatService.markMessageAsRead "auto0" "u2"
              (set_faults [true] hiSent) in
   r.1 = Return tt ∧ db r.2 = db hiSent ∧
   console r.2 = ["Error marking message as read:"]) ∧
  (let r := ChatService.markChatAsRead hiChat "u2"
              (set_faults [false; true] hiSent) in
   r.1 = Return tt ∧ db r.2 = db hiSent ∧
   console r.2 = ["Error marking chat as read:"]) ∧
  (NotificationService.markAsRead "n1" (worldOf emptyDb [true])).1
    = Throw (StoreError "unavailable") ∧
  (ChatService.addParticipant hiChat "u3" (set_faults [true] hiSent)).1
    = Throw (StoreError "unavailable").
Proof.
  split_and!.
  - intros k u w. apply (runMark_outcome (MarkMessage k u)).
  - intros c u w. apply (runMark_outcome (MarkChat c u)).
  - vm_compute. done.
  - vm_compute. done.
  - reflexivity.
  - reflexivity.
Qed.

(** ** Message subscriptions *)

Global Instance ordered_total {A} (key : A → Z) dir : Total (ordered key dir).
Proof. intros x y. destruct dir; simpl; lia. Qed.

Lemma messagesQuery_hits chat d :
  (filter (λ kd : string * ChatMessage,
             forallb (λ f, messageMatches f kd.2)
                     (q_where (ChatService.messagesQuery chat)) = true)
          (map_to_list (chatMessages d))).*2
  = chatMessagesOf chat d.
Proof.
  unfold chatMessagesOf. f_equal. apply list_filter_iff.
  intros [k m]. simpl. rewrite andb_true_r.
  by rewrite bool_decide_eq_true.
Qed.



Lemma Sorted_app_l {A} (R : relation A) (l1 l2 : list A) :
  Sorted R (l1 ++ l2) → Sorted R l1.
Proof.
  induction l1 as [|x l1 IH]; simpl; [constructor|].
  intros Hs. apply Sorted_inv in Hs as [Hs Hhd].
  constructor; [by apply IH|].
  destruct l1; [constructor|]. simpl in Hhd. apply HdRel_inv in Hhd.
  by constructor.
Qed.


(** ** Group chats *)

Lemma createGroupChat_unfold c ps s w :
  ChatService.createGroupChat c ps s w =
  let room := mkChatRoom (autoId w (idsTaken w)) (Some s) Group
                         (c :: filter (λ p, p ≠ c) ps) c
                         (clock w (clockReads w)) None
                         (clock w (S (clockReads w))) true in
  let w1 := mkWorld (db w) (faults w) (clock w) (S (S (clockReads w)))
                    (autoId w) (S (idsTaken w)) (console w) (toasts w) in
  match faults w with
  | true :: fs =>
      (Throw (StoreError "unavailable"),
       (console_error "Error creating group chat:" (set_faults fs w1)).2)
  | _ =>
      (Return room,
       set_db (mkDb (<[room_id room := room]> (chatRooms (db w)))
                    (chatMessages (db w)) (notifications (db w)))
              (set_faults (tail (faults w)) w1))
  end.
Proof.
  unfold ChatService.createGroupChat, tryCatch, bind, newDocId, Date_now,
    writeDoc, ret.
  rewrite commit_unfold. simpl.
  destruct (faults w) as [|[] fs]; reflexivity.
Qed.

(** C10.  [createGroupChat] validates nothing: for every creator, every
    participant list and every name, the empty and the blank ones included,
    it builds an active group room with a generated id, the given name and
    the participants [c] followed by the members of the list other than
    [c], and stores it; the only way it fails is the store call failing,
    and then the store error is rethrown.  The name check sits in the
    caller: [handleStartChat], in group mode with at least two users
    selected, shows a toast and creates nothing when the trimmed name is
    empty, and otherwise hands the name to [createGroupChat] as it is. *)
Theorem createGroupChat_accepts_any_name
    (c s : string) (ps : list string) (uid u1 u2 : string)
    (others : list string) (w : World) :
  let r := ChatService.createGroupChat c ps s w in
  let room := mkChatRoom (autoId w (idsTaken w)) (Some s) Group
                         (c :: filter (λ p, p ≠ c) ps) c
                         (clock w (clockReads w)) None
                         (clock w (S (clockReads w))) true in
  (if nextCallSucceeds w
   then r.1 = Return room ∧
        db r.2 = mkDb (<[room_id room := room]> (chatRooms (db w)))
                      (chatMessages (db w)) (notifications (db w))
   else r.1 = Throw (StoreError "unavailable") ∧ db r.2 = db w) ∧
  ChatModal.handleStartChat (Some uid) (u1 :: u2 :: others) true s w
  = if bool_decide (ChatModal.trim s = "")
    then (Return None, (toast_error "Please enter a group name" w).2)
    else
      match ChatService.createGroupChat uid (u1 :: u2 :: others) s w with
      | (Return chat, w') => (Return (Some chat), w')
      | (Throw _, w') =>
          (Return None,
           (toast_error "Failed to start chat"
              (console_error "Error starting chat:" w').2).2)
      end.
Proof.
  split.
  - rewrite createGroupChat_unfold. unfold nextCallSucceeds.
    destruct (faults w) as [|[] fs]; simpl; done.
  - unfold ChatModal.handleStartChat.
    rewrite (bool_decide_eq_true_2 (1 < length (u1 :: u2 :: others)))
      by (simpl; lia).
    simpl. case_bool_decide; [reflexivity|].
    unfold tryCatch, bind.
    destruct (ChatService.createGroupChat _ _ _ w) as [[chat|e] w'];
      reflexivity.
Qed.

(** The empty list and the empty name: the room's participants are the
    creator alone. *)
Lemma createGroupChat_empty_name_and_list :
  let r := ChatService.createGroupChat "u1" [] "" (worldOf emptyDb []) in
  ∃ room, r.1 = Return room ∧
          participants room = ["u1"] ∧ room_name room = Some "" ∧
          room_type room = Group ∧ isActive room = true ∧
          chatRooms (db r.2) !! room_id room = Some room.
Proof. eexists. vm_compute. by split_and!. Qed.

(** * Further properties of the coordinators *)

(** ** Queries *)

Lemma afterCall_healthy w : faults w = [] → afterCall w = w.
Proof. intros Hf. unfold afterCall. rewrite Hf. destruct w; simpl in *. by subst. Qed.

Lemma afterCall_db w : db (afterCall w) = db w.
Proof. done. Qed.

Section run_query_facts.
Context {A F O : Type} (matches : F → A → bool) (key : O → A → Z).

(** The result of a query, followed by what the limit cut off, is an
    arrangement of the matching documents in the order asked for. *)
Lemma runQuery_split (q : Query F O) (docs : gmap string A) :
  ∃ rest,
    runQuery matches key q docs ++ rest ≡ₚ hitsOf matches q docs ∧
    (∀ o dir, q_orderBy q = Some (o, dir) →
       Sorted (ordered (λ kd : string * A, key o kd.2) dir)
              (runQuery matches key q docs ++ rest)) ∧
    length (runQuery matches key q docs)
      = match q_limit q with
        | Some n => Nat.min n (length (hitsOf matches q docs))
        | None => length (hitsOf matches q docs)
        end.
Proof.
  unfold runQuery. fold (hitsOf matches q docs).
  set (hits := hitsOf matches q docs).
  set (sorted := match q_orderBy q with
                 | Some (o, dir) =>
                     merge_sort (ordered (λ kd : string * A, key o kd.2) dir) hits
                 | None => hits
                 end).
  assert (sorted ≡ₚ hits) as Hperm.
  { subst sorted. destruct (q_orderBy q) as [[o dir]|]; [|done].
    apply merge_sort_Permutation. }
  assert (∀ o dir, q_orderBy q = Some (o, dir) →
            Sorted (ordered (λ kd : string * A, key o kd.2) dir) sorted)
    as Hsorted.
  { intros o dir Ho. subst sorted. rewrite Ho. apply Sorted_merge_sort, _. }
  destruct (q_limit q) as [n|].
  - exists (drop n sorted). rewrite take_drop. split_and!; [done..|].
    rewrite length_take, (Permutation_length Hperm). lia.
  - exists []. rewrite app_nil_r. split_and!; [done..|].
    by rewrite (Permutation_length Hperm).
Qed.

Lemma hitsOf_elem (q : Query F O) (docs : gmap string A) k a :
  (k, a) ∈ hitsOf matches q docs ↔
  docs !! k = Some a ∧ forallb (λ f, matches f a) (q_where q) = true.
Proof.
  unfold hitsOf. rewrite list_elem_of_filter, elem_of_map_to_list. simpl. tauto.
Qed.

Lemma runQuery_elem (q : Query F O) (docs : gmap string A) k a :
  (k, a) ∈ runQuery matches key q docs →
  docs !! k = Some a ∧ forallb (λ f, matches f a) (q_where q) = true.
Proof.
  intros Hin. destruct (runQuery_split q docs) as (rest & Hperm & _).
  apply hitsOf_elem. rewrite <- Hperm. apply elem_of_app. by left.
Qed.

Lemma runQuery_unlimited (q : Query F O) (docs : gmap string A) :
  q_limit q = None → runQuery matches key q docs ≡ₚ hitsOf matches q docs.
Proof.
  intros Hl. destruct (runQuery_split q docs) as (rest & Hperm & _ & Hlen).
  rewrite Hl in Hlen. apply Permutation_length in Hperm as Hlen'.
  rewrite length_app, Hlen in Hlen'.
  destruct rest; [|simpl in Hlen'; lia]. by rewrite app_nil_r in Hperm.
Qed.

Lemma runQuery_sorted (q : Query F O) (docs : gmap string A) o dir :
  q_orderBy q = Some (o, dir) →
  Sorted (ordered (λ kd : string * A, key o kd.2) dir)
         (runQuery matches key q docs).
Proof.
  intros Ho. destruct (runQuery_split q docs) as (rest & _ & Hsorted & _).
  eapply Sorted_app_l. by apply Hsorted.
Qed.
End run_query_facts.

Lemma getDocs_rooms_unfold q w :
  getDocs_rooms q w =
  match faults w with
  | true :: fs => (Throw (StoreError "unavailable"), set_faults fs w)
  | _ => (Return (roomsOf q (db w)), afterCall w)
  end.
Proof.
  unfold getDocs_rooms, bind, storeCall, readDb, ret, afterCall.
  destruct w as [d fs c cr a it co to]; simpl.
  destruct fs as [|[] fs]; reflexivity.
Qed.

Lemma getDocs_messages_unfold q w :
  getDocs_messages q w =
  match faults w with
  | true :: fs => (Throw (StoreError "unavailable"), set_faults fs w)
  | _ => (Return (messagesOf q (db w)), afterCall w)
  end.
Proof.
  unfold getDocs_messages, bind, storeCall, readDb, ret, afterCall.
  destruct w as [d fs c cr a it co to]; simpl.
  destruct fs as [|[] fs]; reflexivity.
Qed.

Lemma getDocs_notifications_unfold q w :
  getDocs_notifications q w =
  match faults w with
  | true :: fs => (Throw (StoreError "unavailable"), set_faults fs w)
  | _ => (Return (notificationsOf q (db w)), afterCall w)
  end.
Proof.
  unfold getDocs_notifications, bind, storeCall, readDb, ret, afterCall.
  destruct w as [d fs c cr a it co to]; simpl.
  destruct fs as [|[] fs]; reflexivity.
Qed.

(** ** Chat listings *)

Lemma getUserChats_unfold u w :
  ChatService.getUserChats u w =
  match faults w with
  | true :: fs =>
      (Return [], (console_error "Error getting user chats:"
                     (set_faults fs w)).2)
  | _ => (Return ((roomsOf (ChatService.userChatsQuery u) (db w)).*2),
          afterCall w)
  end.
Proof.
  unfold ChatService.getUserChats, tryCatch, bind.
  rewrite getDocs_rooms_unfold.
  destruct (faults w) as [|[] fs]; reflexivity.
Qed.

Lemma userChats_elem u d k r :
  (k, r) ∈ roomsOf (ChatService.userChatsQuery u) d ↔
  chatRooms d !! k = Some r ∧ u ∈ participants r ∧ isActive r = true.
Proof.
  unfold roomsOf. rewrite runQuery_unlimited by done.
  rewrite hitsOf_elem. simpl.
  rewrite andb_true_r, andb_true_iff, !bool_decide_eq_true. tauto.
Qed.

Lemma userChats_listing u d :
  (roomsOf (ChatService.userChatsQuery u) d).*2 ≡ₚ activeChatsOf u d ∧
  Sorted byLastActivityDesc ((roomsOf (ChatService.userChatsQuery u) d).*2).
Proof.
  split.
  - unfold roomsOf. rewrite runQuery_unlimited by done.
    unfold hitsOf, activeChatsOf.
    erewrite list_filter_iff; [done|].
    intros [k r]. simpl.
    rewrite andb_true_r, andb_true_iff, !bool_decide_eq_true. tauto.
  - eapply (Sorted_fmap snd); [|by eapply runQuery_sorted].
    done.
Qed.

(** X1.  [getUserChats] never throws and never changes the store.  When
    its store call goes through it returns every active room that has the
    user among its participants, each stored room once, most recent
    activity first, with no limit; it is the list [subscribeToUserChats]
    hands to its callback.  When the call fails it returns the empty
    list. *)
Theorem getUserChats_lists_active_chats (u : string) (w : World) :
  db (ChatService.getUserChats u w).2 = db w ∧
  ∃ l, (ChatService.getUserChats u w).1 = Return l ∧
       if nextCallSucceeds w
       then l ≡ₚ activeChatsOf u (db w) ∧ Sorted byLastActivityDesc l ∧
            l = ChatService.subscribeToUserChats u (λ chats, chats) (db w)
       else l = [].
Proof.
  rewrite getUserChats_unfold. unfold nextCallSucceeds.
  destruct (userChats_listing u (db w)) as [Hperm Hsorted].
  destruct (faults w) as [|[] fs]; simpl; (split; [done|]);
    eexists; (split; [done|]); by split_and?.
Qed.

Lemma deleteChatRoom_unfold chat w :
  ChatService.deleteChatRoom chat w =
  match faults w with
  | true :: fs =>
      (Throw (StoreError "unavailable"),
       (console_error "Error deleting chat room:" (set_faults fs w)).2)
  | _ =>
      match chatRooms (db w) !! chat with
      | Some room =>
          (Return tt,
           set_db (mkDb (<[chat := patchRoom PatchInactive room]>
                           (chatRooms (db w)))
                        (chatMessages (db w)) (notifications (db w)))
                  (afterCall w))
      | None =>
          (Throw (StoreError "not-found"),
           (console_error "Error deleting chat room:" (afterCall w)).2)
      end
  end.
Proof.
  unfold ChatService.deleteChatRoom, tryCatch. rewrite commit_unfold.
  unfold afterCall. simpl.
  destruct (faults w) as [|[] fs]; simpl; try reflexivity;
    destruct (chatRooms (db w) !! chat); reflexivity.
Qed.

(** X2.  [deleteChatRoom] on a stored room, when its store call goes
    through, only clears the room's [isActive] flag: the room document
    stays, every other room and every message is untouched, and from then
    on the room is in no user's chat listing. *)
Theorem deleteChatRoom_hides_room (chat : string) (room : ChatRoom)
    (w : World) :
  chatRooms (db w) !! chat = Some room →
  nextCallSucceeds w = true →
  let r := ChatService.deleteChatRoom chat w in
  r.1 = Return tt ∧
  chatRooms (db r.2) = <[chat := patchRoom PatchInactive room]>
                          (chatRooms (db w)) ∧
  chatMessages (db r.2) = chatMessages (db w) ∧
  notifications (db r.2) = notifications (db w) ∧
  ∀ u, chat ∉ (roomsOf (ChatService.userChatsQuery u) (db r.2)).*1.
Proof.
  intros Hroom Hok r. subst r. rewrite deleteChatRoom_unfold, Hroom.
  unfold nextCallSucceeds in Hok.
  destruct (faults w) as [|[] fs]; try discriminate; simpl;
    (split_and!; try done);
    intros u ((k & x) & -> & Hin)%list_elem_of_fmap;
    apply userChats_elem in Hin as (Hx & _ & Hact); simpl in *;
    rewrite lookup_insert_eq in Hx; injection Hx as <-; discriminate.
Qed.

(** The statement of X2 on the example chat of u1 and u2. *)
Lemma deleteChatRoom_hides_room_witness :
  hiChat ∉
    (roomsOf (ChatService.userChatsQuery "u1")
             (db (ChatService.deleteChatRoom hiChat hiSent).2)).*1.
Proof.
  destruct (chatRooms (db hiSent) !! hiChat) as [room|] eqn:Hroom;
    [|vm_compute in Hroom; discriminate].
  apply (deleteChatRoom_hides_room hiChat room hiSent Hroom eq_refl).
Defined.

(** X3.  A group room just created is in the chat listing of its creator
    and of every user of the participant list. *)
Theorem createGroupChat_is_listed (c s : string) (ps : list string)
    (u : string) (w : World) :
  nextCallSucceeds w = true →
  u ∈ c :: ps →
  let r := ChatService.createGroupChat c ps s w in
  ∃ room, r.1 = Return room ∧
          (room_id room, room)
            ∈ roomsOf (ChatService.userChatsQuery u) (db r.2).
Proof.
  intros Hok Hu r. subst r. rewrite createGroupChat_unfold.
  unfold nextCallSucceeds in Hok.
  assert (u ∈ c :: filter (λ p, p ≠ c) ps) as Hin.
  { destruct (decide (u = c)) as [->|Hne]; [left|].
    right. apply list_elem_of_filter. split; [done|].
    apply elem_of_cons in Hu as [?|?]; done. }
  destruct (faults w) as [|[] fs]; try discriminate; simpl;
    (eexists; split; [done|]);
    apply userChats_elem; simpl; by rewrite lookup_insert_eq.
Qed.

(** The statement of X3 for a group of three on the empty store. *)
Lemma createGroupChat_is_listed_witness :
  ∃ room,
    (ChatService.createGroupChat "u1" ["u2"; "u3"] "team"
       (worldOf emptyDb [])).1 = Return room ∧
    (room_id room, room)
      ∈ roomsOf (ChatService.userChatsQuery "u3")
          (db (ChatService.createGroupChat "u1" ["u2"; "u3"] "team"
                 (worldOf emptyDb [])).2).
Proof.
  apply (createGroupChat_is_listed "u1" "team" ["u2"; "u3"] "u3"
           (worldOf emptyDb [])).
  - reflexivity.
  - do 2 right. left.
Defined.

(** ** Participants *)

(** A single room update that logs and rethrows. *)
Lemma updateRoom_unfold line chat patch w :
  tryCatch (commit [UpdateRoom chat patch])
           (λ error, console_error line ;;; throw error) w =
  match faults w with
  | true :: fs =>
      (Throw (StoreError "unavailable"),
       (console_error line (set_faults fs w)).2)
  | _ =>
      match chatRooms (db w) !! chat with
      | Some room =>
          (Return tt,
           set_db (mkDb (<[chat := patchRoom patch room]> (chatRooms (db w)))
                        (chatMessages (db w)) (notifications (db w)))
                  (afterCall w))
      | None =>
          (Throw (StoreError "not-found"),
           (console_error line (afterCall w)).2)
      end
  end.
Proof.
  unfold tryCatch. rewrite commit_unfold. unfold afterCall. simpl.
  destruct (faults w) as [|[] fs]; simpl; try reflexivity;
    destruct (chatRooms (db w) !! chat); reflexivity.
Qed.

Lemma arrayRemove_absent u l : u ∉ l → arrayRemove u l = l.
Proof.
  unfold arrayRemove. induction l as [|x l IH]; [done|].
  intros Hnin. apply not_elem_of_cons in Hnin as [Hne Hnin].
  rewrite filter_cons_True by done. by rewrite IH.
Qed.

Lemma arrayRemove_union u l : u ∉ l → arrayRemove u (arrayUnion u l) = l.
Proof.
  intros Hnin. unfold arrayUnion. rewrite bool_decide_eq_false_2 by done.
  unfold arrayRemove. rewrite filter_app, filter_cons_False, filter_nil
    by (intros Hne; by apply Hne).
  rewrite app_nil_r. by apply arrayRemove_absent.
Qed.

Lemma patchRoom_union_idemp u room :
  patchRoom (PatchParticipantsUnion u) (patchRoom (PatchParticipantsUnion u) room)
  = patchRoom (PatchParticipantsUnion u) room.
Proof. simpl. by rewrite arrayUnion_idemp. Qed.

(** X4.  [addParticipant] on a stored room, when its store call goes
    through, rewrites only that room, and only its participants: the user
    is among them afterwards, the former participants come first in their
    former order, and nothing is added when the user was one already.
    Calling it again, whatever the store then does, leaves the store as
    the first call left it. *)
Theorem addParticipant_unites (chat u : string) (room : ChatRoom) (w : World) :
  chatRooms (db w) !! chat = Some room →
  nextCallSucceeds w = true →
  let r := ChatService.addParticipant chat u w in
  let room' := patchRoom (PatchParticipantsUnion u) room in
  r.1 = Return tt ∧
  db r.2 = mkDb (<[chat := room']> (chatRooms (db w)))
                (chatMessages (db w)) (notifications (db w)) ∧
  u ∈ participants room' ∧
  (participants room) `prefix_of` (participants room') ∧
  (u ∈ participants room → room' = room ∧ db r.2 = db w) ∧
  db (ChatService.addParticipant chat u r.2).2 = db r.2.
Proof.
  intros Hroom Hok r room'.
  assert (r = ChatService.addParticipant chat u w) as Hr by done.
  clearbody r. unfold ChatService.addParticipant, writeDoc in Hr.
  rewrite updateRoom_unfold, Hroom in Hr. unfold nextCallSucceeds in Hok.
  assert (r = (Return tt,
               set_db (mkDb (<[chat := room']> (chatRooms (db w)))
                            (chatMessages (db w)) (notifications (db w)))
                      (afterCall w))) as ->.
  { destruct (faults w) as [|[] fs]; done. }
  clear Hr. simpl. split_and!; try done.
  - apply arrayUnion_elem.
  - unfold arrayUnion. case_bool_decide; [done|]. by apply prefix_app_r.
  - intros Hin.
    assert (room' = room) as Heq.
    { subst room'. simpl. rewrite arrayUnion_present by done. by destruct room. }
    split; [done|]. rewrite Heq, insert_id by done. by destruct (db w).
  - unfold ChatService.addParticipant, writeDoc.
    rewrite updateRoom_unfold.
    cbn [db set_db chatRooms chatMessages notifications faults afterCall
         set_faults].
    rewrite lookup_insert_eq.
    destruct (tail (faults w)) as [|[] fs];
      cbn [db set_db chatRooms chatMessages notifications faults afterCall
           set_faults snd console_error fst]; try done;
      subst room'; by rewrite patchRoom_union_idemp, insert_insert_eq.
Qed.

(** The statement of X4 for a third user joining the example chat. *)
Lemma addParticipant_unites_witness :
  (ChatService.addParticipant hiChat "u3" hiSent).1 = Return tt ∧
  db (ChatService.addParticipant hiChat "u3"
        (ChatService.addParticipant hiChat "u3" hiSent).2).2
  = db (ChatService.addParticipant hiChat "u3" hiSent).2.
Proof.
  destruct (chatRooms (db hiSent) !! hiChat) as [room|] eqn:Hroom;
    [|vm_compute in Hroom; discriminate].
  destruct (addParticipant_unites hiChat "u3" room hiSent Hroom eq_refl)
    as (H1 & _ & _ & _ & _ & H2).
  by split.
Defined.

(** X5.  [removeParticipant] on a stored room, when its store call goes
    through, rewrites only that room's participants: every occurrence of
    the user is gone, the others stay in their order, and removing a user
    who is no participant leaves the store unchanged.  Removing a user
    right after adding them to a room they were not in restores the room
    as it was. *)
Theorem removeParticipant_removes (chat u : string) (room : ChatRoom)
    (w : World) :
  chatRooms (db w) !! chat = Some room →
  faults w = [] →
  let r := ChatService.removeParticipant chat u w in
  let room' := patchRoom (PatchParticipantsRemove u) room in
  r.1 = Return tt ∧
  db r.2 = mkDb (<[chat := room']> (chatRooms (db w)))
                (chatMessages (db w)) (notifications (db w)) ∧
  participants room' = filter (λ x, x ≠ u) (participants room) ∧
  (u ∉ participants room') ∧
  (u ∉ participants room → db r.2 = db w) ∧
  (u ∉ participants room →
   db (ChatService.removeParticipant chat u
         (ChatService.addParticipant chat u w).2).2 = db w).
Proof.
  intros Hroom Hf r room'.
  assert (∀ w0 room0, chatRooms (db w0) !! chat = Some room0 → faults w0 = [] →
            ChatService.removeParticipant chat u w0 =
            (Return tt,
             set_db (mkDb (<[chat := patchRoom (PatchParticipantsRemove u) room0]>
                             (chatRooms (db w0)))
                          (chatMessages (db w0)) (notifications (db w0)))
                    w0)) as Hrem.
  { intros w0 room0 H0 Hf0. unfold ChatService.removeParticipant, writeDoc.
    rewrite updateRoom_unfold, H0, Hf0. by rewrite afterCall_healthy. }
  subst r. rewrite (Hrem w room Hroom Hf). simpl. split_and!; try done.
  - intros [Hne _]%list_elem_of_filter. by apply Hne.
  - intros Hnin. fold (arrayRemove u (participants room)).
    rewrite arrayRemove_absent by done.
    replace (mkChatRoom _ _ _ _ _ _ _ _ _) with room by (by destruct room).
    rewrite insert_id by done. by destruct (db w).
  - intros Hnin.
    assert (ChatService.addParticipant chat u w =
            (Return tt,
             set_db (mkDb (<[chat := patchRoom (PatchParticipantsUnion u) room]>
                             (chatRooms (db w)))
                          (chatMessages (db w)) (notifications (db w)))
                    w)) as ->.
    { unfold ChatService.addParticipant, writeDoc.
      rewrite updateRoom_unfold, Hroom, Hf. by rewrite afterCall_healthy. }
    erewrite Hrem; [| simpl; apply lookup_insert_eq | done].
    simpl. rewrite insert_insert_eq.
    fold (arrayRemove u (arrayUnion u (participants room))).
    rewrite arrayRemove_union by done.
    replace (mkChatRoom _ _ _ _ _ _ _ _ _) with room by (by destruct room).
    rewrite insert_id by done. by destruct (db w).
Qed.

(** The statement of X5 on the example chat: u2 leaves, and a third user
    joins and leaves again. *)
Lemma removeParticipant_removes_witness :
  (ChatService.removeParticipant hiChat "u2" hiSent).1 = Return tt ∧
  db (ChatService.removeParticipant hiChat "u3"
        (ChatService.addParticipant hiChat "u3" hiSent).2).2 = db hiSent.
Proof.
  destruct (chatRooms (db hiSent) !! hiChat) as [room|] eqn:Hroom;
    [|vm_compute in Hroom; discriminate].
  split.
  - apply (removeParticipant_removes hiChat "u2" room hiSent Hroom eq_refl).
  - apply (removeParticipant_removes hiChat "u3" room hiSent Hroom eq_refl).
    vm_compute in Hroom. injection Hroom as <-. simpl.
    rewrite !elem_of_cons, elem_of_nil. intros [?|[?|?]]; done.
Defined.

(** ** Direct chat lookup that fails *)

(** X6.  [createDirectChat] takes a failed lookup for a missing room: when
    the read of the pair's document fails and the write that follows goes
    through, it stores a brand-new room under the derived id and returns
    it, replacing whatever document was stored there, its last-message
    summary included; the only trace of the failed read is a console
    line. *)
Theorem createDirectChat_overwrites_after_failed_lookup
    (a b : string) (fs : list bool) (w : World) :
  faults w = true :: fs →
  nextCallSucceeds (set_faults fs w) = true →
  let r := ChatService.createDirectChat a b w in
  let k := ChatService.directChatId a b in
  let fresh := mkChatRoom k None Direct [a; b] a (clock w (clockReads w)) None
                          (clock w (S (clockReads w))) true in
  r.1 = Return fresh ∧
  chatRooms (db r.2) = <[k := fresh]> (chatRooms (db w)) ∧
  chatMessages (db r.2) = chatMessages (db w) ∧
  console r.2 = "Error getting direct chat:" :: console w.
Proof.
  intros Hf Hok r k fresh. subst r.
  unfold ChatService.createDirectChat, ChatService.getDirectChat, getDoc_room,
    writeDoc, tryCatch, bind, storeCall, readDb, ret, console_error, Date_now.
  rewrite Hf. cbn beta iota. rewrite commit_unfold. simpl.
  unfold nextCallSucceeds in Hok. simpl in Hok.
  destruct fs as [|[] fs']; done.
Qed.

(** The statement of X6 on the example chat, which has a last message. *)
Lemma createDirectChat_overwrites_after_failed_lookup_witness :
  lastMessage <$>
    chatRooms (db (ChatService.createDirectChat "u1" "u2"
                     (set_faults [true] hiSent)).2) !! hiChat
  = Some None.
Proof.
  destruct (createDirectChat_overwrites_after_failed_lookup "u1" "u2" []
              (set_faults [true] hiSent) eq_refl eq_refl)
    as (_ & Hrooms & _).
  rewrite Hrooms. unfold hiChat. by rewrite lookup_insert_eq.
Defined.

(** ** Reading the messages of a chat *)

Lemma getChatMessages_unfold chat limit w :
  ChatService.getChatMessages chat limit w =
  match faults w with
  | true :: fs =>
      (Return [], (console_error "Error getting chat messages:"
                     (set_faults fs w)).2)
  | _ =>
      (Return (reverse
                 ((messagesOf (mkQuery [ChatIdEq chat]
                                       (Some (ByTimestamp, Desc))
                                       (Some limit)) (db w)).*2)),
       afterCall w)
  end.
Proof.
  unfold ChatService.getChatMessages, tryCatch, bind.
  rewrite getDocs_messages_unfold.
  destruct (faults w) as [|[] fs]; reflexivity.
Qed.

(** The page of [getChatMessages], put back in ascending order, is the
    tail of an ascending arrangement of all the chat's messages. *)
Lemma newest_page chat limit d :
  let l := reverse ((messagesOf (mkQuery [ChatIdEq chat]
                                         (Some (ByTimestamp, Desc))
                                         (Some limit)) d).*2) in
  ∃ older,
    Sorted byTimestamp (older ++ l) ∧
    older ++ l ≡ₚ chatMessagesOf chat d ∧
    length l = Nat.min limit (length (chatMessagesOf chat d)).
Proof.
  intros l. subst l. unfold messagesOf.
  set (q := mkQuery [ChatIdEq chat] (Some (ByTimestamp, Desc)) (Some limit)).
  destruct (runQuery_split messageMatches messageKey q (chatMessages d))
    as (rest & Hperm & Hsorted & Hlen).
  assert ((hitsOf messageMatches q (chatMessages d)).*2 = chatMessagesOf chat d)
    as Hhits by exact (messagesQuery_hits chat d).
  exists (reverse (rest.*2)). split_and!.
  - rewrite <- reverse_app, <- fmap_app.
    apply (Sorted_reverse (flip byTimestamp)).
    eapply (Sorted_fmap snd); [|exact (Hsorted ByTimestamp Desc eq_refl)].
    done.
  - rewrite <- reverse_app, <- fmap_app, reverse_Permutation, Hperm.
    by rewrite Hhits.
  - rewrite length_reverse, length_fmap, Hlen. simpl.
    by rewrite <- Hhits, length_fmap.
Qed.

(** X7.  [getChatMessages] never throws and never changes the store.  When
    its store call goes through it returns messages of the chat in
    ascending timestamp order: the [limitCount] newest, or all of them when
    the chat has no more than that, every message it leaves out being no
    newer than those it returns.  When the call fails it returns the empty
    list. *)
Theorem getChatMessages_returns_newest_page (chat : string) (limit : nat)
    (w : World) :
  db (ChatService.getChatMessages chat limit w).2 = db w ∧
  ∃ l, (ChatService.getChatMessages chat limit w).1 = Return l ∧
       if nextCallSucceeds w
       then ∃ older,
              Sorted byTimestamp (older ++ l) ∧
              older ++ l ≡ₚ chatMessagesOf chat (db w) ∧
              length l = Nat.min limit (length (chatMessagesOf chat (db w)))
       else l = [].
Proof.
  rewrite getChatMessages_unfold. unfold nextCallSucceeds.
  pose proof (newest_page chat limit (db w)) as Hpage.
  destruct (faults w) as [|[] fs]; simpl; (split; [done|]);
    eexists; (split; [done|]); done.
Qed.

(** The outcome of [sendMessage], as a lemma to build on. *)
Lemma sendMessage_outcome chat sender name body w :
  sendOutcome chat sender body TextMessage None w
    (ChatService.sendMessage chat sender name body w) ∧
  isReturn (ChatService.sendMessage chat sender name body w).1 =
    nextCallSucceeds w && bool_decide (is_Some (chatRooms (db w) !! chat)).
Proof.
  rewrite sendMessage_unfold.
  exact (send_cases (mkChatMessage _ chat sender name body TextMessage _
                                   None [sender] None None) _ w eq_refl).
Qed.

(** X8.  A message that [sendMessage] returned is among the messages
    [getChatMessages] returns for its chat afterwards, provided the limit
    covers the chat's messages and the read goes through. *)
Theorem sent_message_is_read_back (chat sender name body : string)
    (limit : nat) (w : World) :
  let r := ChatService.sendMessage chat sender name body w in
  ∀ m, r.1 = Return m →
       nextCallSucceeds r.2 = true →
       length (chatMessagesOf chat (db r.2)) ≤ limit →
       ∃ l, (ChatService.getChatMessages chat limit r.2).1 = Return l ∧
            m ∈ l.
Proof.
  intros r m Hm Hok Hlimit.
  destruct (sendMessage_outcome chat sender name
              body w) as [Hout _].
  fold r in Hout.
  destruct Hout as [(m' & room & Hr & Hchat & _ & _ & _ & _ & _ & _ & Hw)
                   |(e & Hr & _)]; [|congruence].
  assert (m' = m) as -> by congruence.
  destruct Hw as (Hmsgs & _ & _).
  destruct (getChatMessages_returns_newest_page chat limit r.2)
    as (_ & l & Hl & Hpage).
  rewrite Hok in Hpage. destruct Hpage as (older & _ & Hperm & Hlen).
  exists l. split; [done|].
  assert (older = []) as ->.
  { apply Permutation_length in Hperm. rewrite length_app in Hperm.
    destruct older; [done|]. simpl in Hperm. lia. }
  simpl in Hperm. rewrite Hperm.
  unfold chatMessagesOf. apply list_elem_of_fmap. exists (msg_id m, m).
  split; [done|]. apply list_elem_of_filter. split; [done|].
  apply elem_of_map_to_list. rewrite Hmsgs. apply lookup_insert_eq.
Qed.

(** The statement of X8 on the example chat. *)
Lemma sent_message_is_read_back_witness :
  ∃ l, (ChatService.getChatMessages hiChat 50 hiSent).1 = Return l ∧
       mkChatMessage "auto0" hiChat "u1" "U1" "hi" TextMessage 1002 None
                     ["u1"] None None ∈ l.
Proof.
  apply (sent_message_is_read_back hiChat "u1" "U1" "hi" 50
           (ChatService.createDirectChat "u1" "u2" (worldOf emptyDb [])).2).
  - vm_compute. reflexivity.
  - reflexivity.
  - vm_compute. lia.
Defined.

(** ** What the read marks achieve *)

(** X9.  After [markChatAsRead], when its store calls go through, the user
    is in the [readBy] of every message of the chat, and the messages of
    all other chats are exactly as before. *)
Theorem markChatAsRead_marks_every_message (chat u : string) (w : World) :
  faults w = [] →
  let d' := db (ChatService.markChatAsRead chat u w).2 in
  (∀ k m', chatMessages d' !! k = Some m' → chatId m' = chat →
           u ∈ readBy m') ∧
  (∀ k m, chatMessages (db w) !! k = Some m → chatId m ≠ chat →
          chatMessages d' !! k = Some m) ∧
  chatRooms d' = chatRooms (db w).
Proof.
  intros Hf d'.
  destruct (markChatAsRead_effect chat u w) as (_ & _ & H).
  destruct (H Hf) as (_ & msgs' & Hd & Hun). fold d' in Hd. rewrite Hd.
  simpl. clear H Hd.
  assert (∀ k m, chatMessages (db w) !! k = Some m →
            k ∈ (messagesOf (markChatQuery chat u) (db w)).*1 ↔
            chatId m = chat ∧ readBy m ≠ [u]) as Hdocs.
  { intros k m Hm. rewrite list_elem_of_fmap. split.
    - intros ((k' & m0) & -> & Hin).
      apply messagesOf_elem in Hin as [Hm0 Hmatch]; [|done..].
      simpl in *. assert (m0 = m) as -> by congruence.
      rewrite andb_true_r, andb_true_iff, !bool_decide_eq_true in Hmatch.
      destruct Hmatch as [? Hnin]. split; [done|].
      intros Heq. apply Hnin. by apply list_elem_of_singleton.
    - intros [Hc Hr]. exists (k, m). split; [done|].
      apply messagesOf_elem; [done..|]. split; [done|]. simpl.
      rewrite andb_true_r, andb_true_iff, !bool_decide_eq_true.
      split; [done|]. by intros Heq%list_elem_of_singleton. }
  split_and!; [| |done].
  - intros k m' Hm' Hc. rewrite (Hun k) in Hm'.
    destruct (chatMessages (db w) !! k) as [m|] eqn:Hm;
      [|by case_decide].
    case_decide as Hin; simplify_eq/=.
    + apply arrayUnion_elem.
    + destruct (decide (readBy m' = [u])) as [->|Hne]; [left|].
      exfalso. apply Hin. by apply (Hdocs k m').
  - intros k m Hm Hc. rewrite (Hun k), Hm.
    case_decide as Hin; [|done].
    apply (Hdocs k m Hm) in Hin as [? _]. done.
Qed.

(** The statement of X9 on the example chat, read by u2. *)
Lemma markChatAsRead_marks_every_message_witness :
  ∃ m', chatMessages (db hiRead) !! "auto0" = Some m' ∧ "u2" ∈ readBy m'.
Proof.
  destruct (chatMessages (db hiRead) !! "auto0") as [m'|] eqn:Hm;
    [|vm_compute in Hm; discriminate].
  exists m'. split; [done|].
  apply (proj1 (markChatAsRead_marks_every_message hiChat "u2" hiSent eq_refl)
           "auto0" m' Hm).
  vm_compute in Hm. injection Hm as <-. reflexivity.
Defined.



(** ** Notifications: batches and counts *)

Lemma patchRead_idemp x : patchRead (patchRead x) = patchRead x.
Proof. done. Qed.

Lemma patchRead_read x : n_read x = true → patchRead x = x.
Proof. intros Hr. destruct x; simpl in *. by subst. Qed.

(** A batch of [read] updates on documents that exist goes through and
    flips exactly the listed documents. *)
Lemma applyWrites_read (l : list string) (d : Db) :
  (∀ k, k ∈ l → is_Some (notifications d !! k)) →
  ∃ ns',
    applyWrites (map UpdateRead l) d
      = Some (mkDb (chatRooms d) (chatMessages d) ns') ∧
    ∀ k, ns' !! k = if decide (k ∈ l) then patchRead <$> notifications d !! k
                    else notifications d !! k.
Proof.
  revert d. induction l as [|k l IH]; intros d Hall.
  - exists (notifications d). split; [by destruct d|].
    intros k. by rewrite decide_False by apply not_elem_of_nil.
  - destruct (Hall k) as [x Hx]; [left|]. simpl. rewrite Hx.
    set (d1 := mkDb _ _ _).
    destruct (IH d1) as (ns' & Happ & Hlook).
    { intros k' Hk'. simpl.
      destruct (decide (k = k')) as [->|Hne].
      - rewrite lookup_insert_eq. by eexists.
      - rewrite lookup_insert_ne by done. apply Hall. by right. }
    exists ns'. split; [exact Happ|].
    intros k'. rewrite (Hlook k'). simpl.
    destruct (decide (k = k')) as [->|Hne].
    + rewrite lookup_insert_eq, Hx. simpl.
      rewrite (decide_True (P := k' ∈ k' :: l)) by left.
      by case_decide.
    + rewrite lookup_insert_ne by done.
      destruct (decide (k' ∈ l)) as [Hin|Hnin].
      * by rewrite (decide_True (P := k' ∈ k :: l)) by (by right).
      * rewrite (decide_False (P := k' ∈ k :: l)); [done|].
        intros [?|?]%elem_of_cons; congruence.
Qed.

(** A batch of deletes always goes through and removes exactly the listed
    documents. *)
Lemma applyWrites_delete (l : list string) (d : Db) :
  ∃ ns',
    applyWrites (map DeleteNotification l) d
      = Some (mkDb (chatRooms d) (chatMessages d) ns') ∧
    ∀ k, ns' !! k = if decide (k ∈ l) then None else notifications d !! k.
Proof.
  revert d. induction l as [|k l IH]; intros d.
  - exists (notifications d). split; [by destruct d|].
    intros k. by rewrite decide_False by apply not_elem_of_nil.
  - simpl. set (d1 := mkDb _ _ _).
    destruct (IH d1) as (ns' & Happ & Hlook).
    exists ns'. split; [exact Happ|].
    intros k'. rewrite (Hlook k'). simpl.
    destruct (decide (k = k')) as [->|Hne].
    + rewrite lookup_delete_eq.
      rewrite (decide_True (P := k' ∈ k' :: l)) by left.
      by case_decide.
    + rewrite lookup_delete_ne by done.
      destruct (decide (k' ∈ l)) as [Hin|Hnin].
      * by rewrite (decide_True (P := k' ∈ k :: l)) by (by right).
      * rewrite (decide_False (P := k' ∈ k :: l)); [done|].
        intros [?|?]%elem_of_cons; congruence.
Qed.

Lemma map_keys {A} (mk : string → WriteOp) (docs : list (string * A)) :
  map (λ doc : string * A, mk doc.1) docs = map mk (docs.*1).
Proof. induction docs as [|doc l IH]; simpl; [done|]. by rewrite IH. Qed.

Lemma notificationsOf_keys q d k :
  q_limit q = None →
  k ∈ (notificationsOf q d).*1 ↔
  ∃ x, notifications d !! k = Some x ∧
       forallb (λ f, notificationMatches f x) (q_where q) = true.
Proof.
  intros Hl. unfold notificationsOf. rewrite list_elem_of_fmap. split.
  - intros ((k' & x) & -> & Hin). exists x.
    rewrite runQuery_unlimited in Hin by done. by apply hitsOf_elem in Hin.
  - intros (x & Hx & Hm). exists (k, x). split; [done|].
    rewrite runQuery_unlimited by done. by apply hitsOf_elem.
Qed.

(** A query followed by one batch built from its documents, with no
    failing store call ahead. *)
Lemma query_then_commit_healthy q (mkop : string * NotificationData → WriteOp)
    (h : Error → M unit) w :
  faults w = [] →
  tryCatch (docs <~ getDocs_notifications q ;; commit (map mkop docs)) h w
  = match applyWrites (map mkop (notificationsOf q (db w))) (db w) with
    | Some d' => (Return tt, set_db d' w)
    | None => h (StoreError "not-found") w
    end.
Proof.
  intros Hf. unfold tryCatch, bind.
  rewrite getDocs_notifications_unfold, Hf, afterCall_healthy by done.
  rewrite commit_unfold_any.
  assert (set_faults [] w = w) as Hw by (destruct w; simpl in *; by subst).
  destruct (map mkop (notificationsOf q (db w))) as [|op ops].
  - simpl. f_equal. by destruct w.
  - rewrite Hf. cbv zeta. cbn [tail]. rewrite Hw.
    by destruct (applyWrites _ _).
Qed.

Lemma getUnreadCount_healthy u w :
  faults w = [] →
  NotificationService.getUnreadCount u w
  = (Return (length (unreadNotifications u (db w))), w).
Proof.
  intros Hf. unfold NotificationService.getUnreadCount, tryCatch, bind, ret.
  rewrite getDocs_notifications_unfold, Hf, afterCall_healthy by done.
  do 2 f_equal. unfold notificationsOf.
  rewrite runQuery_unlimited by done. unfold hitsOf, unreadNotifications.
  f_equal. apply list_filter_iff. intros [k x]. simpl.
  rewrite andb_true_r, andb_true_iff, !bool_decide_eq_true. tauto.
Qed.

Lemma filter_length_insert {A} (P : string * A → Prop)
    `{∀ x, Decision (P x)} (m : gmap string A) k y :
  m !! k = None →
  length (filter P (map_to_list (<[k := y]> m)))
  = (if decide (P (k, y)) then 1 else 0) + length (filter P (map_to_list m)).
Proof.
  intros Hk. rewrite map_to_list_insert by done.
  rewrite filter_cons. by case_decide.
Qed.

(** X11.  After [markAllAsRead], when its store calls go through, every
    notification addressed to the user is read and is otherwise as it was,
    the notifications of other users, the rooms and the messages are
    untouched, and [getUnreadCount] answers 0 for the user. *)
Theorem markAllAsRead_clears_unread (u : string) (w : World) :
  faults w = [] →
  let r := NotificationService.markAllAsRead u w in
  r.1 = Return tt ∧
  (∀ k, notifications (db r.2) !! k
        = (λ x, if bool_decide (n_userId x = u) then patchRead x else x)
            <$> notifications (db w) !! k) ∧
  chatRooms (db r.2) = chatRooms (db w) ∧
  chatMessages (db r.2) = chatMessages (db w) ∧
  (NotificationService.getUnreadCount u r.2).1 = Return 0.
Proof.
  intros Hf r. subst r. unfold NotificationService.markAllAsRead.
  rewrite query_then_commit_healthy by done.
  set (q := mkQuery [UserIdEq u; ReadEq false] None None).
  rewrite (map_keys UpdateRead).
  destruct (applyWrites_read ((notificationsOf q (db w)).*1) (db w))
    as (ns' & -> & Hlook).
  { intros k (x & Hx & _)%notificationsOf_keys; [by eexists|done]. }
  simpl.
  assert (∀ k, ns' !! k
               = (λ x, if bool_decide (n_userId x = u) then patchRead x else x)
                   <$> notifications (db w) !! k) as Hns.
  { intros k. rewrite (Hlook k).
    destruct (notifications (db w) !! k) as [x|] eqn:Hx; [|by case_decide].
    simpl. case_decide as Hin.
    - apply notificationsOf_keys in Hin as (x' & Hx' & Hm); [|done].
      assert (x' = x) as -> by congruence. simpl in Hm.
      rewrite andb_true_r, andb_true_iff, !bool_decide_eq_true in Hm.
      destruct Hm as [Hu _]. by rewrite bool_decide_eq_true_2.
    - case_bool_decide as Hu; [|done]. f_equal. symmetry.
      apply patchRead_read. destruct (n_read x) eqn:Hr; [done|].
      exfalso. apply Hin. apply notificationsOf_keys; [done|].
      exists x. split; [done|]. simpl.
      by rewrite andb_true_r, andb_true_iff, !bool_decide_eq_true. }
  split_and!; try done.
  rewrite getUnreadCount_healthy by done. simpl. do 2 f_equal.
  unfold unreadNotifications. simpl. rewrite filter_none; [done|].
  intros [k x'] Hin%elem_of_map_to_list [Hu Hr]. simpl in *.
  rewrite Hns in Hin.
  destruct (notifications (db w) !! k) as [x|]; [|discriminate].
  simpl in Hin. injection Hin as <-.
  destruct (bool_decide (n_userId x = u)) eqn:Hb; simpl in *;
    [discriminate | by apply bool_decide_eq_false in Hb].
Qed.

(** The statement of X11 after one like notification for u2. *)
Lemma markAllAsRead_clears_unread_witness :
  (NotificationService.getUnreadCount "u2" likedWorld).1 = Return 1 ∧
  (NotificationService.getUnreadCount "u2"
     (NotificationService.markAllAsRead "u2" likedWorld).2).1 = Return 0.
Proof.
  split; [vm_compute; reflexivity|].
  apply (markAllAsRead_clears_unread "u2"). reflexivity.
Defined.

(** ** Creating, reading and deleting notifications *)


Lemma createNotification_healthy n w :
  hasRequiredFields n = true → faults w = [] →
  ∃ x w', NotificationService.createNotification n w = (Return (n_id x), w') ∧
          faults w' = [] ∧
          n_id x = autoId w (idsTaken w) ∧
          db w' = mkDb (chatRooms (db w)) (chatMessages (db w))
                       (<[n_id x := x]> (notifications (db w))) ∧
          n_userId x = i_userId n ∧ n_read x = default false (i_read n).
Proof.
  intros Hreq Hf.
  unfold NotificationService.createNotification, tryCatch, writeDoc.
  unfold hasRequiredFields in Hreq.
  apply andb_true_iff in Hreq as [[-> ->]%andb_true_iff ->]. simpl.
  unfold bind, newDocId.
  destruct (i_createdAt n) as [t|]; [case_bool_decide|];
    unfold Date_now, ret; rewrite commit_unfold; simpl; rewrite Hf; simpl;
    eexists (mkNotificationData _ _ _ _ _ _ _ _ _), _;
    (split; [reflexivity|]); simpl; split_and!; try done;
    by destruct (i_read n).
Qed.

(** X13.  Creating a notification that is not already marked read, under
    an id that is not yet in use, raises the recipient's unread count by
    exactly one. *)
Theorem createNotification_raises_unread_count
    (n : NotificationInput) (w : World) :
  hasRequiredFields n = true →
  faults w = [] →
  i_read n ≠ Some true →
  notifications (db w) !! autoId w (idsTaken w) = None →
  let r := NotificationService.createNotification n w in
  ∃ c, (NotificationService.getUnreadCount (i_userId n) w).1 = Return c ∧
       (NotificationService.getUnreadCount (i_userId n) r.2).1
         = Return (S c).
Proof.
  intros Hreq Hf Hread Hfresh r. subst r.
  destruct (createNotification_healthy n w Hreq Hf)
    as (x & w' & -> & Hf' & Hid & Hdb & Hu & Hr).
  rewrite !getUnreadCount_healthy by done. simpl.
  eexists. split; [done|]. do 2 f_equal.
  unfold unreadNotifications. rewrite Hdb. simpl.
  rewrite filter_length_insert by (by rewrite Hid).
  rewrite decide_True; [done|]. simpl. split; [done|].
  rewrite Hr. destruct (i_read n) as [[]|]; done.
Qed.

(** The statement of X13 for a first notification on the empty store. *)
Lemma createNotification_raises_unread_count_witness :
  ∃ c, (NotificationService.getUnreadCount "u2" (worldOf emptyDb [])).1
         = Return c ∧
       (NotificationService.getUnreadCount "u2"
          (NotificationService.createNotification
             (mkNotificationInput "u2" "u1" Like (Some "m1") "liked your meme"
                                  None None None)
             (worldOf emptyDb [])).2).1 = Return (S c).
Proof.
  apply (createNotification_raises_unread_count
           (mkNotificationInput "u2" "u1" Like (Some "m1") "liked your meme"
                                None None None)
           (worldOf emptyDb [])); done.
Defined.

(** A single write that logs and rethrows. *)
Lemma writeDoc_rethrow_unfold line op w :
  tryCatch (writeDoc op) (λ error, console_error line ;;; throw error) w =
  match faults w with
  | true :: fs =>
      (Throw (StoreError "unavailable"),
       (console_error line (set_faults fs w)).2)
  | _ =>
      match applyWrite op (db w) with
      | Some d' => (Return tt, set_db d' (afterCall w))
      | None => (Throw (StoreError "not-found"),
                 (console_error line (afterCall w)).2)
      end
  end.
Proof.
  unfold writeDoc, tryCatch. rewrite commit_unfold. unfold afterCall. simpl.
  destruct (faults w) as [|[] fs]; simpl; try reflexivity;
    destruct (applyWrite op (db w)); reflexivity.
Qed.

(** X14.  [markAsRead] on a stored notification, when the store calls go
    through, sets its [read] flag and changes nothing else; doing it again
    changes nothing; and if the notification was unread, the unread count
    of its recipient drops by exactly one. *)
Theorem markAsRead_flips_one_flag (k : string) (x : NotificationData)
    (w : World) :
  notifications (db w) !! k = Some x →
  faults w = [] →
  let r := NotificationService.markAsRead k w in
  r.1 = Return tt ∧
  db r.2 = mkDb (chatRooms (db w)) (chatMessages (db w))
                (<[k := patchRead x]> (notifications (db w))) ∧
  db (NotificationService.markAsRead k r.2).2 = db r.2 ∧
  (n_read x = false →
   ∃ c, (NotificationService.getUnreadCount (n_userId x) w).1
          = Return (S c) ∧
        (NotificationService.getUnreadCount (n_userId x) r.2).1 = Return c).
Proof.
  intros Hx Hf r.
  assert (∀ w0 x0, notifications (db w0) !! k = Some x0 → faults w0 = [] →
            NotificationService.markAsRead k w0 =
            (Return tt,
             set_db (mkDb (chatRooms (db w0)) (chatMessages (db w0))
                          (<[k := patchRead x0]> (notifications (db w0))))
                    w0)) as Hmark.
  { intros w0 x0 H0 Hf0. unfold NotificationService.markAsRead.
    rewrite writeDoc_rethrow_unfold, Hf0. simpl. rewrite H0.
    by rewrite afterCall_healthy. }
  subst r. rewrite (Hmark w x Hx Hf). simpl. split_and!; try done.
  - erewrite Hmark; [|simpl; apply lookup_insert_eq|done]. simpl.
    by rewrite insert_insert_eq.
  - intros Hunread. rewrite !getUnreadCount_healthy by done. simpl.
    unfold unreadNotifications. simpl.
    rewrite <- (insert_delete_eq (notifications (db w)) k (patchRead x)).
    pose proof (insert_delete_id (notifications (db w)) k x Hx) as Hsplit.
    set (rest := delete k (notifications (db w))) in *.
    assert (rest !! k = None) as Hrest by apply lookup_delete_eq.
    rewrite <- Hsplit.
    rewrite !filter_length_insert by done.
    rewrite decide_True by done.
    rewrite decide_False by (simpl; intros [_ ?]; done).
    by eexists.
Qed.

(** The statement of X14 on the one like notification of u2. *)
Lemma markAsRead_flips_one_flag_witness :
  ∃ c, (NotificationService.getUnreadCount "u2" likedWorld).1
         = Return (S c) ∧
       (NotificationService.getUnreadCount "u2"
          (NotificationService.markAsRead "auto0" likedWorld).2).1 = Return c.
Proof.
  destruct (notifications (db likedWorld) !! "auto0") as [x|] eqn:Hx;
    [|vm_compute in Hx; discriminate].
  destruct (markAsRead_flips_one_flag "auto0" x likedWorld Hx eq_refl)
    as (_ & _ & _ & Hcount).
  vm_compute in Hx. injection Hx as <-. by apply Hcount.
Defined.

(** X15.  [deleteNotification], when its store call goes through, removes
    the document under the given id and nothing else, and it succeeds just
    the same, changing nothing, when no document is stored under that
    id. *)
Theorem deleteNotification_removes_one (k : string) (w : World) :
  nextCallSucceeds w = true →
  let r := NotificationService.deleteNotification k w in
  r.1 = Return tt ∧
  db r.2 = mkDb (chatRooms (db w)) (chatMessages (db w))
                (delete k (notifications (db w))) ∧
  notifications (db r.2) !! k = None ∧
  (∀ k', k' ≠ k →
         notifications (db r.2) !! k' = notifications (db w) !! k') ∧
  (notifications (db w) !! k = None → db r.2 = db w).
Proof.
  intros Hok r. subst r. unfold NotificationService.deleteNotification.
  rewrite writeDoc_rethrow_unfold. unfold nextCallSucceeds in Hok.
  assert (∀ w0, db (afterCall w0) = db w0) as Hdb by done.
  destruct (faults w) as [|[] fs] eqn:Hf; try discriminate; simpl;
    (split_and!; try done;
     [ apply lookup_delete_eq
     | intros k' Hne; by apply lookup_delete_ne
     | intros Hnone; rewrite delete_id by done; by destruct (db w) ]).
Qed.

(** The statement of X15 for an id that is not stored. *)
Lemma deleteNotification_removes_one_witness :
  (NotificationService.deleteNotification "nowhere" (worldOf emptyDb [])).1
  = Return tt.
Proof.
  apply (deleteNotification_removes_one "nowhere" (worldOf emptyDb [])).
  reflexivity.
Defined.

(** X16.  After [deleteAllNotifications], when its store calls go
    through, no notification addressed to the user is stored, and every
    other notification, room and message is as before. *)
Theorem deleteAllNotifications_empties_inbox (u : string) (w : World) :
  faults w = [] →
  let r := NotificationService.deleteAllNotifications u w in
  r.1 = Return tt ∧
  (∀ k, notifications (db r.2) !! k
        = match notifications (db w) !! k with
          | Some x => if bool_decide (n_userId x = u) then None else Some x
          | None => None
          end) ∧
  notificationsFor u (db r.2) = [] ∧
  chatRooms (db r.2) = chatRooms (db w) ∧
  chatMessages (db r.2) = chatMessages (db w).
Proof.
  intros Hf r. subst r. unfold NotificationService.deleteAllNotifications.
  rewrite query_then_commit_healthy by done.
  set (q := mkQuery [UserIdEq u] None None).
  rewrite (map_keys DeleteNotification).
  destruct (applyWrites_delete ((notificationsOf q (db w)).*1) (db w))
    as (ns' & -> & Hlook).
  simpl.
  assert (∀ k, ns' !! k
               = match notifications (db w) !! k with
                 | Some x => if bool_decide (n_userId x = u) then None
                             else Some x
                 | None => None
                 end) as Hns.
  { intros k. rewrite (Hlook k).
    destruct (notifications (db w) !! k) as [x|] eqn:Hx; [|by case_decide].
    case_decide as Hin.
    - apply notificationsOf_keys in Hin as (x' & Hx' & Hm); [|done].
      assert (x' = x) as -> by congruence. simpl in Hm.
      rewrite andb_true_r, bool_decide_eq_true in Hm.
      by rewrite bool_decide_eq_true_2.
    - case_bool_decide as Hu; [|done].
      exfalso. apply Hin. apply notificationsOf_keys; [done|].
      exists x. split; [done|]. simpl.
      by rewrite andb_true_r, bool_decide_eq_true. }
  split_and!; try done.
  unfold notificationsFor. simpl. rewrite filter_none; [done|].
  intros [k x'] Hin%elem_of_map_to_list Hu. simpl in *.
  rewrite Hns in Hin.
  destruct (notifications (db w) !! k) as [x|]; [|discriminate].
  destruct (bool_decide (n_userId x = u)) eqn:Hb; [discriminate|].
  injection Hin as <-. by apply bool_decide_eq_false in Hb.
Qed.

(** The statement of X16 after one like notification for u2. *)
Lemma deleteAllNotifications_empties_inbox_witness :
  notificationsFor "u2"
    (db (NotificationService.deleteAllNotifications "u2"
           (NotificationService.createLikeNotification
              "u1" "u2" "meme1" "title" (worldOf emptyDb [])).2).2) = [].
Proof.
  apply (deleteAllNotifications_empties_inbox "u2"). reflexivity.
Defined.

Lemma cleanupOldNotifications_unfold w :
  NotificationService.cleanupOldNotifications w =
  tryCatch
    (docs <~ getDocs_notifications
               (mkQuery [CreatedAtLt (clock w (clockReads w)
                                      - 30 * 24 * 60 * 60 * 1000)%Z]
                        None None) ;;
     commit (map (λ doc : string * NotificationData,
                    DeleteNotification doc.1) docs))
    (λ error, console_error "Error cleaning up old notifications:")
    (Date_now w).2.
Proof. reflexivity. Qed.

(** X17.  [cleanupOldNotifications] never throws.  When its store calls go
    through it deletes exactly the notifications created more than 30 days
    (2 592 000 000 ms) before the clock reading it takes: one created
    exactly 30 days before is kept, and rooms and messages are untouched. *)
Theorem cleanupOldNotifications_sweeps_older_than_30_days (w : World) :
  let r := NotificationService.cleanupOldNotifications w in
  r.1 = Return tt ∧
  (faults w = [] →
   (∀ k, notifications (db r.2) !! k
         = match notifications (db w) !! k with
           | Some x =>
               if bool_decide (n_createdAt x
                               < clock w (clockReads w) - 2592000000)%Z
               then None else Some x
           | None => None
           end) ∧
   chatRooms (db r.2) = chatRooms (db w) ∧
   chatMessages (db r.2) = chatMessages (db w)).
Proof.
  intros r. split.
  { by apply tryCatch_returns. }
  intros Hf. subst r. rewrite cleanupOldNotifications_unfold.
  rewrite query_then_commit_healthy by done.
  change (30 * 24 * 60 * 60 * 1000)%Z with 2592000000%Z.
  set (t := (clock w (clockReads w) - 2592000000)%Z).
  set (q := mkQuery [CreatedAtLt t] None None).
  rewrite (map_keys DeleteNotification).
  change (db (Date_now w).2) with (db w).
  destruct (applyWrites_delete ((notificationsOf q (db w)).*1) (db w))
    as (ns' & -> & Hlook).
  simpl. split_and!; try done.
  intros k. rewrite (Hlook k).
  destruct (notifications (db w) !! k) as [x|] eqn:Hx; [|by case_decide].
  case_decide as Hin.
  - apply notificationsOf_keys in Hin as (x' & Hx' & Hm); [|done].
    assert (x' = x) as -> by congruence. simpl in Hm.
    rewrite andb_true_r, bool_decide_eq_true in Hm.
    by rewrite bool_decide_eq_true_2.
  - case_bool_decide as Hu; [|done].
    exfalso. apply Hin. apply notificationsOf_keys; [done|].
    exists x. split; [done|]. simpl.
    by rewrite andb_true_r, bool_decide_eq_true.
Qed.

(** The statement of X17 on a store with a notification created 30 days
    and 1 ms before the clock reading and one created exactly 30 days
    before it: the first is deleted, the second is kept. *)
Lemma cleanupOldNotifications_sweeps_older_than_30_days_witness :
  (NotificationService.cleanupOldNotifications sweepWorld).1 = Return tt ∧
  notifications (db sweepWorld) !! "old" = Some oldNotification ∧
  notifications (db (NotificationService.cleanupOldNotifications
                       sweepWorld).2) !! "old" = None ∧
  notifications (db (NotificationService.cleanupOldNotifications
                       sweepWorld).2) !! "edge" = Some edgeNotification.
Proof.
  pose proof (cleanupOldNotifications_sweeps_older_than_30_days sweepWorld)
    as H.
  cbv zeta in H. destruct H as [Hret H].
  destruct (H eq_refl) as (Hlook & _ & _).
  split_and!.
  - exact Hret.
  - reflexivity.
  - rewrite (Hlook "old"). reflexivity.
  - rewrite (Hlook "edge"). reflexivity.
Defined.

Lemma getUserNotifications_unfold u limit w :
  NotificationService.getUserNotifications u limit w =
  match faults w with
  | true :: fs =>
      (Return [], (console_error "Error getting user notifications:"
                     (set_faults fs w)).2)
  | _ =>
      (Return ((notificationsOf (mkQuery [UserIdEq u]
                                         (Some (ByCreatedAt, Desc))
                                         (Some limit)) (db w)).*2),
       afterCall w)
  end.
Proof.
  unfold NotificationService.getUserNotifications, tryCatch, bind.
  rewrite getDocs_notifications_unfold.
  destruct (faults w) as [|[] fs]; reflexivity.
Qed.

(** X18.  [getUserNotifications] never throws and never changes the store.
    When its store call goes through it returns notifications addressed to
    the user, newest first: the [limitCount] newest, or all of them when
    there are no more than that.  When the call fails it returns the empty
    list. *)
Theorem getUserNotifications_returns_newest_first (u : string) (limit : nat)
    (w : World) :
  db (NotificationService.getUserNotifications u limit w).2 = db w ∧
  ∃ l, (NotificationService.getUserNotifications u limit w).1 = Return l ∧
       if nextCallSucceeds w
       then ∃ older,
              Sorted byCreatedAtDesc (l ++ older) ∧
              l ++ older ≡ₚ notificationsFor u (db w) ∧
              length l = Nat.min limit (length (notificationsFor u (db w)))
       else l = [].
Proof.
  rewrite getUserNotifications_unfold. unfold nextCallSucceeds.
  set (q := mkQuery [UserIdEq u] (Some (ByCreatedAt, Desc)) (Some limit)).
  assert (∃ older,
            Sorted byCreatedAtDesc ((notificationsOf q (db w)).*2 ++ older) ∧
            (notificationsOf q (db w)).*2 ++ older
              ≡ₚ notificationsFor u (db w) ∧
            length ((notificationsOf q (db w)).*2)
              = Nat.min limit (length (notificationsFor u (db w))))
    as Hpage.
  { unfold notificationsOf.
    destruct (runQuery_split notificationMatches notificationKey q
                (notifications (db w))) as (rest & Hperm & Hsorted & Hlen).
    assert ((hitsOf notificationMatches q (notifications (db w))).*2
            = notificationsFor u (db w)) as Hhits.
    { unfold hitsOf, notificationsFor. f_equal. apply list_filter_iff.
      intros [k x]. simpl. by rewrite andb_true_r, bool_decide_eq_true. }
    exists (rest.*2). split_and!.
    - rewrite <- fmap_app.
      eapply (Sorted_fmap snd); [|exact (Hsorted ByCreatedAt Desc eq_refl)].
      done.
    - by rewrite <- fmap_app, Hperm, Hhits.
    - rewrite length_fmap, Hlen. simpl. by rewrite <- Hhits, length_fmap. }
  destruct (faults w) as [|[] fs]; simpl; (split; [done|]);
    eexists; (split; [done|]); done.
Qed.

(** ** What the event-driven constructors store *)

Lemma substring0_length n s :
  String.length (NotificationService.substring0 n s)
    = Nat.min n (String.length s) ∧
  String.prefix (NotificationService.substring0 n s) s = true.
Proof.
  destruct (decide (n ≤ String.length s)) as [Hle|Hgt].
  - destruct (substring0_long n s Hle) as [-> ->]. split; [lia|done].
  - rewrite substring0_short by lia. split; [lia|].
    clear. induction s as [|c s IH]; simpl; [done|].
    by destruct (ascii_dec c c).
Qed.

(** X19.  [createLikeNotification] between two different users: when one
    of its four arguments is empty it stores nothing, makes no store call
    and only writes a console line.  Otherwise, if the store call goes
    through, it stores one notification of kind like, addressed to the
    author, from the liking user, targeting the meme, whose metadata holds
    the title cut to its first 100 code units (the whole title when it has
    at most 100); if the store call fails the store is unchanged. *)
Theorem createLikeNotification_stores (a b meme ttl : string) (w : World) :
  a ≠ b →
  let r := NotificationService.createLikeNotification a b meme ttl w in
  r.1 = Return tt ∧
  if NotificationService.truthy a && NotificationService.truthy b
     && NotificationService.truthy meme && NotificationService.truthy ttl
  then
    if nextCallSucceeds w
    then ∃ x t',
        db r.2 = mkDb (chatRooms (db w)) (chatMessages (db w))
                      (<[n_id x := x]> (notifications (db w))) ∧
        n_userId x = b ∧ n_fromUserId x = a ∧ n_type x = Like ∧
        n_targetId x = Some meme ∧
        n_metadata x = Some (mkMetadata (Some t') None None None) ∧
        String.length t' = Nat.min 100 (String.length ttl) ∧
        String.prefix t' ttl = true
    else db r.2 = db w
  else db r.2 = db w ∧ faults r.2 = faults w ∧
       console r.2 = "Invalid parameters for like notification:" :: console w.
Proof.
  intros Hab r. subst r.
  unfold NotificationService.createLikeNotification.
  rewrite bool_decide_eq_false_2 by done.
  destruct (NotificationService.truthy a) eqn:Ha; [|done].
  destruct (NotificationService.truthy b) eqn:Hb; [|done].
  destruct (NotificationService.truthy meme) eqn:Hm; [|done].
  destruct (NotificationService.truthy ttl) eqn:Ht; [|done].
  cbn [negb orb andb].
  pose proof (swallowing_constructor
    (λ now, mkNotificationInput b a Like (Some meme) "liked your meme"
       (Some false) (Some now)
       (Some (mkMetadata (Some (NotificationService.substring0 100 ttl))
                         None None None)))
    (λ _, console_error "Error creating like notification:" ;;;
          console_error "Full error details:") w
    (λ e w', console_error_twice_quiet _ _ w')) as [Hret Hdb].
  split; [exact Hret|].
  unfold hasRequiredFields in Hdb. simpl in Hdb. rewrite Hb in Hdb.
  simpl in Hdb.
  destruct (nextCallSucceeds w); [|exact Hdb].
  destruct Hdb as (x & Hst & Hu & Hfrom & Hty & Htarget & _ & Hmeta).
  destruct (substring0_length 100 ttl) as [Hlen Hpre].
  exists x, (NotificationService.substring0 100 ttl). by split_and!.
Qed.

(** The statement of X19 for a like of u1 on a meme of u2. *)
Lemma createLikeNotification_stores_witness :
  (NotificationService.createLikeNotification
     "u1" "u2" "meme1" "title" (worldOf emptyDb [])).1 = Return tt.
Proof.
  apply (createLikeNotification_stores "u1" "u2" "meme1" "title"
           (worldOf emptyDb [])).
  done.
Defined.

(** X20.  [createCommentNotification] and [createReplyNotification]
    between two different users, with a non-empty recipient and a store
    call that goes through, store one notification of their kind,
    addressed to the recipient, from the acting user, targeting the meme;
    its metadata holds the title as given and the comment or reply text
    cut to its first 100 code units (the whole text when it has at most
    100). *)
Theorem comment_and_reply_store_truncated_text
    (a b meme ttl body : string) (w : World) :
  a ≠ b →
  NotificationService.truthy b = true →
  nextCallSucceeds w = true →
  ∃ t',
    String.length t' = Nat.min 100 (String.length body) ∧
    String.prefix t' body = true ∧
    (∃ x, db (NotificationService.createCommentNotification
                a b meme ttl body w).2
          = mkDb (chatRooms (db w)) (chatMessages (db w))
                 (<[n_id x := x]> (notifications (db w))) ∧
          n_userId x = b ∧ n_fromUserId x = a ∧ n_type x = Comment ∧
          n_targetId x = Some meme ∧
          n_metadata x = Some (mkMetadata (Some ttl) (Some t') None None)) ∧
    (∃ x, db (NotificationService.createReplyNotification
                a b meme ttl body w).2
          = mkDb (chatRooms (db w)) (chatMessages (db w))
                 (<[n_id x := x]> (notifications (db w))) ∧
          n_userId x = b ∧ n_fromUserId x = a ∧ n_type x = Reply ∧
          n_targetId x = Some meme ∧
          n_metadata x = Some (mkMetadata (Some ttl) (Some t') None None)).
Proof.
  intros Hab Hb Hok.
  destruct (substring0_length 100 body) as [Hlen Hpre].
  exists (NotificationService.substring0 100 body).
  split; [done|]. split; [done|].
  unfold NotificationService.createCommentNotification,
    NotificationService.createReplyNotification.
  rewrite !bool_decide_eq_false_2 by done. split.
  - pose proof (swallowing_constructor
      (λ now, mkNotificationInput b a Comment (Some meme)
         "commented on your meme" (Some false) (Some now)
         (Some (mkMetadata (Some ttl)
                  (Some (NotificationService.substring0 100 body))
                  None None)))
      (λ _, console_error "Error creating comment notification:") w
      (λ e w', console_error_quiet _ w')) as [_ Hdb].
    unfold hasRequiredFields in Hdb. simpl in Hdb.
    rewrite Hb, Hok in Hdb. simpl in Hdb.
    destruct Hdb as (x & Hst & Hu & Hfrom & Hty & Htarget & _ & Hmeta).
    exists x. by split_and!.
  - pose proof (swallowing_constructor
      (λ now, mkNotificationInput b a Reply (Some meme)
         "replied to your comment" (Some false) (Some now)
         (Some (mkMetadata (Some ttl)
                  (Some (NotificationService.substring0 100 body))
                  None None)))
      (λ _, console_error "Error creating reply notification:") w
      (λ e w', console_error_quiet _ w')) as [_ Hdb].
    unfold hasRequiredFields in Hdb. simpl in Hdb.
    rewrite Hb, Hok in Hdb. simpl in Hdb.
    destruct Hdb as (x & Hst & Hu & Hfrom & Hty & Htarget & _ & Hmeta).
    exists x. by split_and!.
Qed.

(** The statement of X20 for a comment of u1 on a meme of u2. *)
Lemma comment_and_reply_store_truncated_text_witness :
  ∃ t', String.length t' = Nat.min 100 (String.length (letters 101)) ∧
        String.prefix t' (letters 101) = true ∧
        (∃ x, db (NotificationService.createCommentNotification
                    "u1" "u2" "meme1" "title" (letters 101)
                    (worldOf emptyDb [])).2
              = mkDb ∅ ∅ (<[n_id x := x]> ∅) ∧
              n_userId x = "u2" ∧ n_fromUserId x = "u1" ∧
              n_type x = Comment ∧ n_targetId x = Some "meme1" ∧
              n_metadata x
                = Some (mkMetadata (Some "title") (Some t') None None)) ∧
        (∃ x, db (NotificationService.createReplyNotification
                    "u1" "u2" "meme1" "title" (letters 101)
                    (worldOf emptyDb [])).2
              = mkDb ∅ ∅ (<[n_id x := x]> ∅) ∧
              n_userId x = "u2" ∧ n_fromUserId x = "u1" ∧
              n_type x = Reply ∧ n_targetId x = Some "meme1" ∧
              n_metadata x
                = Some (mkMetadata (Some "title") (Some t') None None)).
Proof.
  apply (comment_and_reply_store_truncated_text "u1" "u2" "meme1" "title"
           (letters 101) (worldOf emptyDb [])); done.
Defined.

(** ** Read paths that mask failures *)

Lemma countUnread_db u chats acc w :
  db (ChatService.countUnread u chats acc w).2 = db w.
Proof.
  rewrite countUnread_refused. by destruct chats.
Qed.

(** X21.  The single-value read paths never throw and never change the
    store: [getDirectChat] answers the document stored under the pair's
    derived id, or null when there is none or when its store call fails;
    [getUnreadMessageCount] answers 0 when the user has no active chat or
    when its first store call fails; [NotificationService.getUnreadCount]
    answers 0 when its store call fails. *)
Theorem read_paths_mask_failures (a b u : string) (w : World) :
  (db (ChatService.getDirectChat a b w).2 = db w ∧
   (ChatService.getDirectChat a b w).1
   = Return (if nextCallSucceeds w
             then chatRooms (db w) !! ChatService.directChatId a b
             else None)) ∧
  (db (ChatService.getUnreadMessageCount u w).2 = db w ∧
   ∃ n, (ChatService.getUnreadMessageCount u w).1 = Return n ∧
        (if nextCallSucceeds w
         then activeChatsOf u (db w) = [] → n = 0
         else n = 0)) ∧
  (db (NotificationService.getUnreadCount u w).2 = db w ∧
   ∃ n, (NotificationService.getUnreadCount u w).1 = Return n ∧
        if nextCallSucceeds w then True else n = 0).
Proof.
  unfold nextCallSucceeds. split_and!.
  - unfold ChatService.getDirectChat, getDoc_room, tryCatch, bind, storeCall,
      readDb, ret.
    destruct (faults w) as [|[] fs]; simpl; try done;
      by destruct (chatRooms (db w) !! _).
  - unfold ChatService.getDirectChat, getDoc_room, tryCatch, bind, storeCall,
      readDb, ret.
    destruct (faults w) as [|[] fs]; simpl; try done;
      by destruct (chatRooms (db w) !! _).
  - unfold ChatService.getUnreadMessageCount, tryCatch, bind.
    rewrite getUserChats_unfold.
    destruct (faults w) as [|[] fs]; simpl; try done;
      match goal with
      | |- context [ChatService.countUnread u ?l 0 ?w0] =>
          pose proof (countUnread_db u l 0 w0) as Hdb;
          destruct (ChatService.countUnread u l 0 w0) as [[n|e] w1]
      end; done.
  - unfold ChatService.getUnreadMessageCount, tryCatch, bind.
    rewrite getUserChats_unfold.
    destruct (userChats_listing u (db w)) as [Hperm _].
    destruct (faults w) as [|[] fs]; simpl.
    + destruct (ChatService.countUnread u _ 0 _) as [[n|e] w1] eqn:Hc;
        simpl; eexists; (split; [done|]); intros Hnone;
        rewrite Hnone in Hperm; apply Permutation_nil_r in Hperm;
        rewrite Hperm in Hc; [by injection Hc as <- | done].
    + by exists 0.
    + destruct (ChatService.countUnread u _ 0 _) as [[n|e] w1] eqn:Hc;
        simpl; eexists; (split; [done|]); intros Hnone;
        rewrite Hnone in Hperm; apply Permutation_nil_r in Hperm;
        rewrite Hperm in Hc; [by injection Hc as <- | done].
  - unfold NotificationService.getUnreadCount, tryCatch, bind, ret.
    rewrite getDocs_notifications_unfold.
    destruct (faults w) as [|[] fs]; done.
  - unfold NotificationService.getUnreadCount, tryCatch, bind, ret.
    rewrite getDocs_notifications_unfold.
    destruct (faults w) as [|[] fs]; simpl; by eexists.
Qed.

(** The statement of X21 for a user with no chat. *)
Lemma read_paths_mask_failures_witness :
  ∃ n, (ChatService.getUnreadMessageCount "u1" (worldOf emptyDb [])).1
         = Return n ∧ n = 0.
Proof.
  destruct (read_paths_mask_failures "u1" "u2" "u1" (worldOf emptyDb []))
    as (_ & (_ & n & Hn & H0) & _).
  exists n. split; [exact Hn|]. apply H0. reflexivity.
Defined.

(** ** Write paths that rethrow *)

(** A single write wrapped in a handler that logs and rethrows. *)
Lemma writeDoc_rethrows line op w :
  rethrows (writeFailure (bool_decide (is_Some (applyWrite op (db w)))) w)
    line (db w)
    (tryCatch (writeDoc op) (λ error, console_error line ;;; throw error) w).
Proof.
  rewrite writeDoc_rethrow_unfold.
  unfold rethrows, writeFailure, nextCallSucceeds.
  destruct (faults w) as [|[] fs]; [|done|];
    by destruct (applyWrite op (db w)).
Qed.

(** A query followed by one batch over its documents, wrapped in a handler
    that logs and rethrows, when the store accepts the batch. *)
Lemma query_commit_rethrows q (mkop : string * NotificationData → WriteOp)
    line w :
  is_Some (applyWrites (map mkop (notificationsOf q (db w))) (db w)) →
  rethrows (batchFailure (bool_decide (notificationsOf q (db w) = [])) w)
    line (db w)
    (tryCatch (docs <~ getDocs_notifications q ;; commit (map mkop docs))
              (λ error, console_error line ;;; throw error) w).
Proof.
  intros [d' Hd']. unfold tryCatch, bind.
  rewrite getDocs_notifications_unfold.
  unfold rethrows, batchFailure, nextCallSucceeds, afterCall.
  destruct (notificationsOf q (db w)) as [|doc docs] eqn:Hdocs.
  - by destruct (faults w) as [|[] fs].
  - rewrite bool_decide_eq_false_2 by done.
    destruct (faults w) as [|[] [|[] fs]] eqn:Hf;
      cbn [fst snd orb]; rewrite ?commit_unfold_any;
      cbn [map fst snd db faults set_faults tail] in *;
      rewrite ?Hf, ?Hd'; done.
Qed.

(** X22.  The write paths that rethrow return exactly when their store
    calls go through and the store accepts the write; otherwise they throw
    the store's error after writing their console line, with the store
    exactly as it was before the call.  [createGroupChat] and
    [deleteNotification] fail only with their store call;
    [addParticipant], [removeParticipant] and [deleteChatRoom] also on a
    room that is not stored, [markAsRead] also on a notification that is
    not stored; [markAllAsRead] and [deleteAllNotifications] fail with
    the store call of their query, or with the one of their commit when
    the query found something.  [createDirectChat] fails only with the
    store call of its write: a lookup whose store call fails counts as a
    room not found, and the call goes on to the write. *)
Theorem write_paths_return_or_rethrow
    (a b name k u : string) (ps : list string) (w : World) :
  rethrows (createDirectChatFailure a b w)
    "Error creating direct chat:" (db w)
    (ChatService.createDirectChat a b w) ∧
  rethrows (writeFailure true w)
    "Error creating group chat:" (db w)
    (ChatService.createGroupChat a ps name w) ∧
  rethrows (writeFailure (bool_decide (is_Some (chatRooms (db w) !! k))) w)
    "Error adding participant:" (db w)
    (ChatService.addParticipant k u w) ∧
  rethrows (writeFailure (bool_decide (is_Some (chatRooms (db w) !! k))) w)
    "Error removing participant:" (db w)
    (ChatService.removeParticipant k u w) ∧
  rethrows (writeFailure (bool_decide (is_Some (chatRooms (db w) !! k))) w)
    "Error deleting chat room:" (db w)
    (ChatService.deleteChatRoom k w) ∧
  rethrows
    (writeFailure (bool_decide (is_Some (notifications (db w) !! k))) w)
    "Error marking notification as read:" (db w)
    (NotificationService.markAsRead k w) ∧
  rethrows (batchFailure (bool_decide (unreadOf u (db w) = [])) w)
    "Error marking all notifications as read:" (db w)
    (NotificationService.markAllAsRead u w) ∧
  rethrows (writeFailure true w)
    "Error deleting notification:" (db w)
    (NotificationService.deleteNotification k w) ∧
  rethrows (batchFailure (bool_decide (allOf u (db w) = [])) w)
    "Error deleting all notifications:" (db w)
    (NotificationService.deleteAllNotifications u w).
Proof.
  split_and!.
  - unfold ChatService.createDirectChat, ChatService.getDirectChat,
      getDoc_room, writeDoc, tryCatch, bind, storeCall, readDb, ret,
      console_error, Date_now, throw, rethrows, createDirectChatFailure,
      nextCallSucceeds, afterCall.
    destruct (faults w) as [|[] [|[] fs]] eqn:Hf;
      cbn [fst snd db faults set_faults tail andb];
      rewrite ?commit_unfold; cbn [fst snd db faults set_faults tail];
      try (destruct (chatRooms (db w) !! ChatService.directChatId a b)
             as [room|] eqn:Hroom;
           [rewrite bool_decide_eq_true_2 by (by eexists)
           |rewrite bool_decide_eq_false_2 by (by intros [? ?])]);
      cbn [fst snd db faults set_faults tail];
      rewrite ?commit_unfold; cbn [fst snd db faults set_faults tail];
      rewrite ?Hf; done.
  - rewrite createGroupChat_unfold.
    unfold rethrows, writeFailure, nextCallSucceeds.
    by destruct (faults w) as [|[] fs].
  - pose proof (writeDoc_rethrows "Error adding participant:"
                  (UpdateRoom k (PatchParticipantsUnion u)) w) as H.
    simpl in H. by destruct (chatRooms (db w) !! k).
  - pose proof (writeDoc_rethrows "Error removing participant:"
                  (UpdateRoom k (PatchParticipantsRemove u)) w) as H.
    simpl in H. by destruct (chatRooms (db w) !! k).
  - pose proof (writeDoc_rethrows "Error deleting chat room:"
                  (UpdateRoom k PatchInactive) w) as H.
    simpl in H. by destruct (chatRooms (db w) !! k).
  - pose proof (writeDoc_rethrows "Error marking notification as read:"
                  (UpdateRead k) w) as H.
    simpl in H. by destruct (notifications (db w) !! k).
  - apply query_commit_rethrows.
    rewrite (map_keys UpdateRead).
    destruct (applyWrites_read
                ((notificationsOf (mkQuery [UserIdEq u; ReadEq false]
                                           None None) (db w)).*1) (db w))
      as (ns' & Happ & _); [|by eexists].
    intros k' Hk'. apply notificationsOf_keys in Hk' as (x & Hx & _);
      [by eexists|done].
  - exact (writeDoc_rethrows "Error deleting notification:"
             (DeleteNotification k) w).
  - apply query_commit_rethrows.
    rewrite (map_keys DeleteNotification).
    destruct (applyWrites_delete
                ((notificationsOf (mkQuery [UserIdEq u] None None)
                                  (db w)).*1) (db w))
      as (ns' & Happ & _).
    by eexists.
Qed.

(** ** ChatModal *)

(** X23.  [handleStartChat] never throws.  Without a signed-in user or
    with nothing selected it does nothing at all.  With a single selected
    user it creates (or finds) the direct chat with that user even in
    group mode, the group name playing no part; outside group mode it
    does so with the first selected user.  A failure of the coordinator is
    turned into a console line and a toast, and no room is handed on. *)
Theorem handleStartChat_direct_path
    (user : option string) (uid first name : string)
    (sel more : list string) (isGroup : bool) (w : World) :
  isReturn (ChatModal.handleStartChat user sel isGroup name w).1 = true ∧
  ChatModal.handleStartChat None sel isGroup name w = (Return None, w) ∧
  ChatModal.handleStartChat user [] isGroup name w = (Return None, w) ∧
  let direct :=
    match ChatService.createDirectChat uid first w with
    | (Return chat, w') => (Return (Some chat), w')
    | (Throw _, w') =>
        (Return None,
         (toast_error "Failed to start chat"
            (console_error "Error starting chat:" w').2).2)
    end in
  ChatModal.handleStartChat (Some uid) [first] isGroup name w = direct ∧
  ChatModal.handleStartChat (Some uid) (first :: more) false name w = direct.
Proof.
  split_and!.
  - unfold ChatModal.handleStartChat.
    destruct user as [u0|]; [|done]. destruct sel as [|f0 rest0]; [done|].
    unfold tryCatch.
    match goal with
    | |- context [match ?body w with _ => _ end] =>
        destruct (body w) as [[o|e] w']
    end; done.
  - by destruct sel.
  - by destruct user.
  - intros direct. subst direct. split.
    + unfold ChatModal.handleStartChat. simpl. rewrite andb_false_r.
      unfold tryCatch, bind.
      destruct (ChatService.createDirectChat uid first w) as [[chat|e] w'];
        reflexivity.
    + unfold ChatModal.handleStartChat. simpl.
      unfold tryCatch, bind.
      destruct (ChatService.createDirectChat uid first w) as [[chat|e] w'];
        reflexivity.
Qed.

Lemma filter_ne_absent (u : string) (l : list string) :
  u ∉ l → filter (λ id, id ≠ u) l = l.
Proof. apply arrayRemove_absent. Qed.

(** X24.  [handleUserSelect] outside group mode selects the user alone.
    In group mode it toggles the user: the user is selected afterwards
    exactly when not selected before, every other user keeps their
    selection state, a selection without repetitions stays so, and
    selecting and then deselecting a user who was not selected gives back
    the selection as it was. *)
Theorem handleUserSelect_toggles (u v : string) (prev : list string) :
  ChatModal.handleUserSelect false u prev = [u] ∧
  (u ∈ ChatModal.handleUserSelect true u prev ↔ u ∉ prev) ∧
  (v ≠ u → (v ∈ ChatModal.handleUserSelect true u prev ↔ v ∈ prev)) ∧
  (NoDup prev → NoDup (ChatModal.handleUserSelect true u prev)) ∧
  (u ∉ prev →
   ChatModal.handleUserSelect true u (ChatModal.handleUserSelect true u prev)
   = prev).
Proof.
  unfold ChatModal.handleUserSelect. split_and!.
  - done.
  - case_bool_decide as Hin.
    + rewrite list_elem_of_filter. split; [by intros [? _]|done].
    + rewrite elem_of_app, list_elem_of_singleton. split; [done|by right].
  - intros Hne. case_bool_decide as Hin.
    + rewrite list_elem_of_filter. split; [by intros [_ ?]|done].
    + rewrite elem_of_app, list_elem_of_singleton.
      split; [by intros [?|?]|by left].
  - intros Hnd. case_bool_decide as Hin.
    + by apply NoDup_filter.
    + apply NoDup_app. split_and!; [done| |apply NoDup_singleton].
      intros x Hx ->%list_elem_of_singleton. done.
  - intros Hnin. rewrite (bool_decide_eq_false_2 (u ∈ prev)) by done.
    rewrite bool_decide_eq_true_2
      by (apply elem_of_app; right; by apply list_elem_of_singleton).
    rewrite filter_app, filter_ne_absent by done.
    rewrite filter_cons_False, filter_nil by (intros Hne; by apply Hne).
    apply app_nil_r.
Qed.

(** The statement of X24 on a selection of two users. *)
Lemma handleUserSelect_toggles_witness :
  ChatModal.handleUserSelect true "u3"
    (ChatModal.handleUserSelect true "u3" ["u1"; "u2"]) = ["u1"; "u2"].
Proof.
  apply (handleUserSelect_toggles "u3" "u1" ["u1"; "u2"]).
  rewrite !elem_of_cons, elem_of_nil. intros [?|[?|?]]; done.
Defined.

(** ** ShareButton *)

Lemma fileStem_char c :
  isSafeChar (ShareButton.toLower
                (if ShareButton.isAlnum c then c else "_"%char)) = true.
Proof.
  destruct c as [[] [] [] [] [] [] [] []]; vm_compute; reflexivity.
Qed.

Lemma fileStem_char_fixed c :
  isSafeChar c = true →
  ShareButton.toLower (if ShareButton.isAlnum c then c else "_"%char) = c.
Proof.
  destruct c as [[] [] [] [] [] [] [] []]; vm_compute; try reflexivity;
    discriminate.
Qed.

(** X25.  The file name [downloadMeme] gives a meme is the title with
    every code unit other than a letter or a digit replaced by an
    underscore and every capital letter lowered, followed by
    [_meme.jpg]: its stem has the title's length, is made of lower-case
    letters, digits and underscores only, and is the title itself when
    the title is already made of those. *)
Theorem downloadName_is_safe (memeTitle : string) :
  ShareButton.downloadName memeTitle
    = ShareButton.fileStem memeTitle +:+ "_meme.jpg" ∧
  String.length (ShareButton.fileStem memeTitle) = String.length memeTitle ∧
  allChars isSafeChar (ShareButton.fileStem memeTitle) = true ∧
  (allChars isSafeChar memeTitle = true →
   ShareButton.fileStem memeTitle = memeTitle).
Proof.
  unfold ShareButton.downloadName, ShareButton.fileStem. split_and!.
  - done.
  - induction memeTitle as [|c s IH]; simpl; [done|]. by rewrite IH.
  - induction memeTitle as [|c s IH]; [done|].
    cbn [ShareButton.mapString allChars]. by rewrite fileStem_char, IH.
  - induction memeTitle as [|c s IH]; [done|].
    cbn [ShareButton.mapString allChars].
    intros [Hc Hs]%andb_true_iff.
    by rewrite fileStem_char_fixed, IH.
Qed.

(** The statement of X25 on a title that is already a safe stem. *)
Lemma downloadName_is_safe_witness :
  ShareButton.fileStem "grumpy_cat_42" = "grumpy_cat_42".
Proof.
  apply (downloadName_is_safe "grumpy_cat_42"). reflexivity.
Defined.

(** ** A new direct chat in the listings *)

(** X26.  A direct chat created for a pair whose derived id was free, with
    no store call failing, is in the chat listing of both users. *)
Theorem createDirectChat_is_listed (a b u : string) (w : World) :
  faults w = [] →
  chatRooms (db w) !! ChatService.directChatId a b = None →
  u = a ∨ u = b →
  let r := ChatService.createDirectChat a b w in
  ∃ room, r.1 = Return room ∧
          (ChatService.directChatId a b, room)
            ∈ roomsOf (ChatService.userChatsQuery u) (db r.2).
Proof.
  intros Hf Hfree Hu r. subst r.
  destruct (createDirectChat_healthy a b w Hf) as [_ H].
  rewrite Hfree in H. destruct H as (t1 & t2 & Hr & Hdb).
  eexists. split; [exact Hr|]. apply userChats_elem. rewrite Hdb. simpl.
  rewrite lookup_insert_eq. split_and!; [done| |done].
  destruct Hu as [->| ->]; [left|right; left].
Qed.

(** The statement of X26 for u2 after u1 opened the chat. *)
Lemma createDirectChat_is_listed_witness :
  ∃ room,
    (ChatService.createDirectChat "u1" "u2" (worldOf emptyDb [])).1
      = Return room ∧
    (hiChat, room)
      ∈ roomsOf (ChatService.userChatsQuery "u2")
          (db (ChatService.createDirectChat "u1" "u2"
                 (worldOf emptyDb [])).2).
Proof.
  apply (createDirectChat_is_listed "u1" "u2" "u2" (worldOf emptyDb [])).
  - reflexivity.
  - reflexivity.
  - by right.
Defined.
